(** * SyncCalendars.py: mirroring busy time between two Outlook calendars

    A shallow embedding of [SyncCalendars.py].  The script talks to Outlook
    through COM; here the mailbox store is a value (accounts, folders and
    appointment items), every COM call that the script makes is a function
    on that value, and the ways a COM call can raise are fields of the
    store, so that the [try]/[except] structure of the script can be
    followed statement by statement. *)

From Stdlib Require Import ZArith List String Bool Lia.
From Stdlib Require Import Sorting.Sorted Sorting.Permutation.
Import ListNotations.
Local Open Scope Z_scope.

Module SyncCalendars.

(** ** Dates

    A [datetime] is kept as its wall-clock reading, in microseconds (the
    resolution of Python's [datetime]).  [replace(tzinfo=None)] keeps
    exactly that reading and drops the zone, so it is the identity here. *)

Definition datetime := Z.
Definition timedelta := Z.

Definition microseconds_per_minute : Z := 60000000.

Definition timedelta_minutes (minutes : Z) : timedelta :=
  minutes * microseconds_per_minute.

Definition timedelta_days (days : Z) : timedelta :=
  days * (1440 * microseconds_per_minute).

Definition replace_tzinfo_None (d : datetime) : datetime := d.

(** [d.strftime('%m/%d/%Y %I:%M %p')] prints the date, the hour, the minute
    and AM/PM: the text names a minute and nothing finer.  The model keeps
    the number of that minute. *)
Definition strftime (d : datetime) : Z := d / microseconds_per_minute.

(** The instant that a printed minute denotes when Outlook reads it back. *)
Definition instant_of_minute (m : Z) : datetime := m * microseconds_per_minute.

(** ** Outlook items and filters *)

Inductive property := PStart | PEnd.

Record AppointmentItem := mkAppointment {
  Subject : string;
  Start : datetime;
  End_ : datetime;
  Location : string;
  BusyStatus : Z;
  Body : string;
  (** reading [.Subject] (resp. [.Start], [.End]) of this item from
      Python raises *)
  Subject_raises : bool;
  Start_raises : bool;
  End_raises : bool
}.

(** The filter strings handed to [Items.Restrict], as syntax:
    [[Start] >= '...' AND [End] <= '...'] and the like. *)
Inductive relop := OpLt | OpLe | OpGt | OpGe.

Inductive restriction :=
| Clause (p : property) (op : relop) (minute : Z)
| AND (l r : restriction).

Definition stored (p : property) (a : AppointmentItem) : datetime :=
  match p with PStart => Start a | PEnd => End_ a end.

Definition compare_with (op : relop) (x y : Z) : bool :=
  match op with
  | OpLt => x <? y
  | OpLe => x <=? y
  | OpGt => x >? y
  | OpGe => x >=? y
  end.

Fixpoint satisfies (f : restriction) (a : AppointmentItem) : bool :=
  match f with
  | Clause p op m => compare_with op (stored p a) (instant_of_minute m)
  | AND l r => satisfies l a && satisfies r a
  end.

(** A calendar folder: its items (recurrences already expanded, as
    [IncludeRecurrences = True] asks), and which COM work on it raises.
    [Restrict_raises f] stands for the whole query with the filter [f]
    raising ([.Items], [Sort], [IncludeRecurrences], [Restrict]);
    [Save_raises a] for the creation of the item [a] on the folder
    raising ([Items.Add], the assignments to the new item, [Save]).  The
    enumeration of [namespace.Folders] and the read of an account's name
    are taken to succeed. *)
Record Folder := mkFolder {
  Items : list AppointmentItem;
  Restrict_raises : restriction -> bool;
  Save_raises : AppointmentItem -> bool
}.

Record Account := mkAccount {
  Name : string;
  Folders : list (string * Folder)
}.

(** [items.Sort("[Start]")]: ascending by start, stable. *)
Fixpoint insert_by_Start (a : AppointmentItem) (l : list AppointmentItem)
  : list AppointmentItem :=
  match l with
  | [] => [a]
  | b :: rest =>
      if Start a <=? Start b then a :: b :: rest
      else b :: insert_by_Start a rest
  end.

Fixpoint Sort_Start (l : list AppointmentItem) : list AppointmentItem :=
  match l with
  | [] => []
  | a :: rest => insert_by_Start a (Sort_Start rest)
  end.

(** ** Exceptions, output and the state of a run *)

Inductive ComCall :=
| CallRestrict (f : restriction)
| CallSave (a : AppointmentItem).

Inductive Exception :=
| ReadError (p : property) (subject : string)
| SubjectError (subject : string)
| ComError (call : ComCall).

(** One constructor for each [print] of the script, carrying the values
    that its f-string interpolates. *)
Inductive LogLine :=
| LSyncing (source target calendar : string)
| LErrorAccessing (calendar account : string)
| LSourceNotFound (account : string)
| LTargetNotFound (account : string)
| LOverlapFound (subject : string) (conflict_start conflict_end : datetime)
| LBooked (event_start event_end : datetime)
| LErrorCreating (e : Exception)
| LConflicting (event_start event_end : datetime)
| LErrorProcessing (subject : string) (e : Exception)
| LSyncingComplete.

Record World := mkWorld {
  target_folder : Folder;
  stdout : list LogLine;
  com_calls : list ComCall
}.

(** Statements that may raise and that act on the world. *)
Definition M (A : Type) : Type := World -> World * (Exception + A).

Definition ret {A} (a : A) : M A := fun w => (w, inr a).

Definition raise {A} (e : Exception) : M A := fun w => (w, inl e).

Definition bind {A B} (m : M A) (k : A -> M B) : M B :=
  fun w =>
    match m w with
    | (w', inr a) => k a w'
    | (w', inl e) => (w', inl e)
    end.

Notation "x <- m ;; k" := (bind m (fun x => k))
  (at level 61, m at next level, right associativity).
Notation "m ;;; k" := (bind m (fun _ => k))
  (at level 61, right associativity).

(** [try: body except Exception as e: handler(e)] *)
Definition try_except {A} (body : M A) (handler : Exception -> M A) : M A :=
  fun w =>
    match body w with
    | (w', inr a) => (w', inr a)
    | (w', inl e) => handler e w'
    end.

Definition with_line (l : LogLine) (w : World) : World :=
  mkWorld (target_folder w) (stdout w ++ [l]) (com_calls w).

Definition print (l : LogLine) : M unit := fun w => (with_line l w, inr tt).

Definition called (c : ComCall) (w : World) : World :=
  mkWorld (target_folder w) (stdout w) (com_calls w ++ [c]).

Definition get_target : M Folder := fun w => (w, inr (target_folder w)).

Definition get_Subject (a : AppointmentItem) : M string :=
  if Subject_raises a then raise (SubjectError (Subject a)) else ret (Subject a).

Definition get_Start (a : AppointmentItem) : M datetime :=
  if Start_raises a then raise (ReadError PStart (Subject a)) else ret (Start a).

Definition get_End (a : AppointmentItem) : M datetime :=
  if End_raises a then raise (ReadError PEnd (Subject a)) else ret (End_ a).

(** [items.Restrict(filter_str)] on the (sorted) items of [folder]. *)
Definition Restrict (folder : Folder) (items : list AppointmentItem)
    (f : restriction) : M (list AppointmentItem) :=
  fun w =>
    if Restrict_raises folder f
    then (called (CallRestrict f) w, inl (ComError (CallRestrict f)))
    else (called (CallRestrict f) w, inr (filter (satisfies f) items)).

(** [new_event.Save()] on the target calendar: the item joins the folder
    unless the call raises. *)
Definition with_item (new_event : AppointmentItem) (folder : Folder) : Folder :=
  mkFolder (Items folder ++ [new_event])
           (Restrict_raises folder) (Save_raises folder).

Definition Save (new_event : AppointmentItem) : M unit :=
  fun w =>
    let tc := target_folder w in
    let w' := called (CallSave new_event) w in
    if Save_raises tc new_event
    then (w', inl (ComError (CallSave new_event)))
    else (mkWorld (with_item new_event tc) (stdout w') (com_calls w'), inr tt).

(** ** The script *)

Definition SOURCE_ACCOUNT : string := "user@workemail.com".
Definition TARGET_ACCOUNT : string := "user@personalemail.com".
Definition CALENDAR_NAME : string := "Calendar".

Fixpoint lookup_folder (name : string) (l : list (string * Folder))
  : option Folder :=
  match l with
  | [] => None
  | (n, f) :: rest => if String.eqb n name then Some f else lookup_folder name rest
  end.

(** [get_calendar]: the first account of that name whose [Folders(name)]
    call does not raise; each call that raises prints a line and the scan
    of the accounts goes on.  Returns the folder (or [None]) and what was
    printed. *)
Fixpoint get_calendar (accounts : list Account) (account_name calendar_name : string)
  : option Folder * list LogLine :=
  match accounts with
  | [] => (None, [])
  | account :: rest =>
      if String.eqb (Name account) account_name then
        match lookup_folder calendar_name (Folders account) with
        | Some folder => (Some folder, [])
        | None =>
            let (r, out) := get_calendar rest account_name calendar_name in
            (r, LErrorAccessing calendar_name account_name :: out)
        end
      else get_calendar rest account_name calendar_name
  end.

Definition fetch_filter (start_date end_date : datetime) : restriction :=
  AND (Clause PStart OpGe (strftime start_date))
      (Clause PEnd OpLe (strftime end_date)).

Definition get_events (calendar_folder : Folder) (start_date end_date : datetime)
  : M (list AppointmentItem) :=
  Restrict calendar_folder (Sort_Start (Items calendar_folder))
           (fetch_filter start_date end_date).

Definition overlap_filter (start end_ : datetime) : restriction :=
  AND (Clause PStart OpLt (strftime end_))
      (Clause PEnd OpGt (strftime start)).

Definition buffer : timedelta := timedelta_minutes 1.

(** The condition of the [if] at line 66. *)
Definition overlap_condition (conflict_start conflict_end start end_ : datetime)
  : bool :=
  ((conflict_start - buffer <=? start) && (start <=? conflict_end + buffer))
  || ((conflict_start <=? start) && (conflict_end >=? end_)).

(** The [for conflict in conflicts] loop, with its early [return True]. *)
Fixpoint scan_conflicts (conflicts : list AppointmentItem) (start end_ : datetime)
  : M bool :=
  match conflicts with
  | [] => ret false
  | conflict :: rest =>
      cs <- get_Start conflict ;;
      let conflict_start := replace_tzinfo_None cs in
      ce <- get_End conflict ;;
      let conflict_end := replace_tzinfo_None ce in
      if overlap_condition conflict_start conflict_end start end_
      then conflict_Subject <- get_Subject conflict ;;
           print (LOverlapFound conflict_Subject conflict_start conflict_end) ;;;
           ret true
      else scan_conflicts rest start end_
  end.

Definition event_overlaps (start end_ : datetime) : M bool :=
  tc <- get_target ;;
  conflicts <- Restrict tc (Sort_Start (Items tc)) (overlap_filter start end_) ;;
  scan_conflicts conflicts start end_.

Definition new_busy_event (event_Start event_End : datetime) (event_Subject : string)
  : AppointmentItem :=
  {| Subject := "Busy";
     Start := event_Start;
     End_ := event_End;
     Location := "Reserved by Automation";
     BusyStatus := 2;
     Body := String.append "Blocked due to event: " event_Subject;
     Subject_raises := false;
     Start_raises := false;
     End_raises := false |}.

(** The [try] block of [book_busy_time], then the function. *)
Definition book_busy_time_body (event : AppointmentItem) : M unit :=
  s <- get_Start event ;;
  e <- get_End event ;;
  event_Subject <- get_Subject event ;;
  Save (new_busy_event s e event_Subject) ;;;
  s' <- get_Start event ;;
  e' <- get_End event ;;
  print (LBooked s' e').

Definition book_busy_time (event : AppointmentItem) : M unit :=
  try_except (book_busy_time_body event)
             (fun e => print (LErrorCreating e)).

(** The body of the [try] of the main loop, and the loop's iteration.
    The handler of line 116 reads [event.Subject] for its line: when
    that read raises, the exception leaves the handler and the loop. *)
Definition process_event_body (event : AppointmentItem) : M unit :=
  s <- get_Start event ;;
  let event_start := replace_tzinfo_None s in
  e <- get_End event ;;
  let event_end := replace_tzinfo_None e in
  overlapping <- event_overlaps event_start event_end ;;
  if negb overlapping then book_busy_time event
  else s' <- get_Start event ;;
       e' <- get_End event ;;
       print (LConflicting s' e').

Definition error_handler (event : AppointmentItem) (e : Exception) : M unit :=
  event_Subject <- get_Subject event ;;
  print (LErrorProcessing event_Subject e).

Definition process_event (event : AppointmentItem) : M unit :=
  try_except (process_event_body event) (error_handler event).

(** A Python [for] loop: an exception that leaves the body leaves the loop. *)
Fixpoint for_each {A} (xs : list A) (body : A -> M unit) : M unit :=
  match xs with
  | [] => ret tt
  | x :: rest => body x ;;; for_each rest body
  end.

Definition main_loop (source_events : list AppointmentItem) : M unit :=
  for_each source_events process_event.

(** Lines 101-118, once both calendars are at hand. *)
Definition sync (source_calendar : Folder) (START_DATE : datetime) : M unit :=
  let END_DATE := START_DATE + timedelta_days 30 in
  source_events <- get_events source_calendar START_DATE END_DATE ;;
  main_loop source_events ;;;
  print LSyncingComplete.

Record Process := mkProcess {
  exit_status : Z;
  printed : list LogLine;
  calls_made : list ComCall;
  target_after : option Folder
}.

(** The whole script.  [namespace_Folders] is [namespace.Folders] and [now]
    what [datetime.now()] answers.  [exit()] without an argument ends the
    process with status 0; an exception that nothing catches ends it with
    status 1. *)
Definition main (namespace_Folders : list Account) (now : datetime) : Process :=
  let START_DATE := now in
  let out0 := [LSyncing SOURCE_ACCOUNT TARGET_ACCOUNT CALENDAR_NAME] in
  let (source_calendar, out1) :=
    get_calendar namespace_Folders SOURCE_ACCOUNT CALENDAR_NAME in
  let (target_calendar, out2) :=
    get_calendar namespace_Folders TARGET_ACCOUNT CALENDAR_NAME in
  match source_calendar with
  | None =>
      mkProcess 0 (out0 ++ out1 ++ out2 ++ [LSourceNotFound SOURCE_ACCOUNT]) [] None
  | Some sc =>
      match target_calendar with
      | None =>
          mkProcess 0 (out0 ++ out1 ++ out2 ++ [LTargetNotFound TARGET_ACCOUNT]) [] None
      | Some tc =>
          match sync sc START_DATE (mkWorld tc (out0 ++ out1 ++ out2) []) with
          | (w, inr _) =>
              mkProcess 0 (stdout w) (com_calls w) (Some (target_folder w))
          | (w, inl _) =>
              mkProcess 1 (stdout w) (com_calls w) (Some (target_folder w))
          end
      end
  end.

(** ** Vocabulary of the statements *)

(** The property reads of an item (subject, start, end) succeed. *)
Definition readable (a : AppointmentItem) : bool :=
  negb (Subject_raises a) && negb (Start_raises a) && negb (End_raises a).

(** The condition of line 66 on an item of the target calendar. *)
Definition matches (start end_ : datetime) (c : AppointmentItem) : bool :=
  overlap_condition (replace_tzinfo_None (Start c))
                    (replace_tzinfo_None (End_ c)) start end_.

(** What line 58 binds to [conflicts]. *)
Definition conflicts_of (tc : Folder) (start end_ : datetime)
  : list AppointmentItem :=
  filter (satisfies (overlap_filter start end_)) (Sort_Start (Items tc)).

(** The overlap query for [start, end_] is answered: [Restrict] does not
    raise and the items that it returns can be read. *)
Definition answers (tc : Folder) (start end_ : datetime) : Prop :=
  Restrict_raises tc (overlap_filter start end_) = false
  /\ forallb readable (conflicts_of tc start end_) = true.

(** The two rules of the overlap test, as relations between intervals. *)
Definition start_within_tolerance (existing : AppointmentItem) (start : datetime)
  : Prop :=
  Start existing - timedelta_minutes 1 <= start <= End_ existing + timedelta_minutes 1.

Definition contains (existing : AppointmentItem) (start end_ : datetime) : Prop :=
  Start existing <= start /\ End_ existing >= end_.

(** The lines that close the processing of one event: booked, booking
    failed, skipped, or failed. *)
Definition is_outcome (l : LogLine) : bool :=
  match l with
  | LBooked _ _ | LErrorCreating _ | LConflicting _ _ | LErrorProcessing _ _ => true
  | _ => false
  end.

Definition outcomes (out : list LogLine) : nat :=
  List.length (filter is_outcome out).

(** [w'] is [w] after statements that leave the target calendar alone and
    print no outcome line. *)
Definition quiet (w w' : World) : Prop :=
  target_folder w' = target_folder w
  /\ exists extra, stdout w' = stdout w ++ extra /\ outcomes extra = 0%nat.



(** What line 102 binds to [source_events] when the fetch is answered. *)
Definition fetched (source_calendar : Folder) (start_date end_date : datetime)
  : list AppointmentItem :=
  filter (satisfies (fetch_filter start_date end_date))
         (Sort_Start (Items source_calendar)).

(** [c], on the target calendar, makes the overlap test of [event] answer
    [True]: the query returns it and the condition of line 66 holds. *)
Definition hit (event c : AppointmentItem) : bool :=
  satisfies (overlap_filter (Start event) (End_ event)) c
  && matches (Start event) (End_ event) c.

(** The target calendar after one iteration of the main loop on [event],
    when the items of the target calendar can be read. *)
Definition next_folder (tc : Folder) (event : AppointmentItem) : Folder :=
  if Start_raises event || End_raises event then tc
  else if Restrict_raises tc (overlap_filter (Start event) (End_ event)) then tc
  else if existsb (hit event) (Items tc) then tc
  else if Subject_raises event then tc
  else
    let new_event := new_busy_event (Start event) (End_ event) (Subject event) in
    if Save_raises tc new_event then tc else with_item new_event tc.

(** With the items of the target calendar readable, the iteration on
    [event] raises out of the loop: the body of the [try] raises - the
    start or the end of the event cannot be read, or the overlap query
    raises - and the handler cannot read the subject. *)
Definition aborts (tc : Folder) (event : AppointmentItem) : bool :=
  (Start_raises event || End_raises event
   || Restrict_raises tc (overlap_filter (Start event) (End_ event)))
  && Subject_raises event.

(** The events that the main loop gets to: all of them up to, and with,
    the first one on which it raises. *)
Fixpoint reached (tc : Folder) (events : list AppointmentItem)
  : list AppointmentItem :=
  match events with
  | [] => []
  | event :: rest =>
      if aborts tc event then [event] else event :: reached tc rest
  end.

(** [tc'] is [tc] with more items. *)
Definition extends (tc tc' : Folder) : Prop :=
  (forall c, In c (Items tc) -> In c (Items tc'))
  /\ Restrict_raises tc' = Restrict_raises tc
  /\ Save_raises tc' = Save_raises tc.

(** The event starts before the minute in which it ends. *)
Definition starts_before_end_minute (event : AppointmentItem) : Prop :=
  Start event < instant_of_minute (strftime (End_ event)).

(** The report that the specification describes, following its words:
    counts of booked, skipped and errored events, accumulated over the
    outcomes of one run. *)
Record spec_SyncReport := mkReport {
  booked : nat;
  skipped : nat;
  errored : nat
}.

Definition spec_tally (out : list LogLine) : spec_SyncReport :=
  {| booked :=
       List.length (filter (fun l => match l with LBooked _ _ => true | _ => false end) out);
     skipped :=
       List.length (filter (fun l => match l with LConflicting _ _ => true | _ => false end) out);
     errored :=
       List.length (filter (fun l => match l with
                                     | LErrorCreating _ | LErrorProcessing _ _ => true
                                     | _ => false
                                     end) out) |}.

(** ** Sample data *)

Definition clock (h m s : Z) : datetime := ((h * 60 + m) * 60 + s) * 1000000.

Definition appointment (subject : string) (start end_ : datetime)
  : AppointmentItem :=
  mkAppointment subject start end_ "" 0 "" false false false.

Definition steady (items : list AppointmentItem) : Folder :=
  mkFolder items (fun _ => false) (fun _ => false).

Definition fresh_world (tc : Folder) : World := mkWorld tc [] [].

Definition lunch_calendar : Folder :=
  steady [appointment "lunch" (clock 12 0 0) (clock 13 0 0)].

Definition mailboxes (source target : Folder) : list Account :=
  [ mkAccount SOURCE_ACCOUNT [(CALENDAR_NAME, source)];
    mkAccount TARGET_ACCOUNT [(CALENDAR_NAME, target)] ].

(** ** Vocabulary of the further properties *)

(** The test of line 29. *)
Definition named (account_name : string) (a : Account) : bool :=
  String.eqb (Name a) account_name.

(** The order that [items.Sort("[Start]")] puts the items in. *)
Definition start_le (a b : AppointmentItem) : Prop := Start a <= Start b.

(** The block that [book_busy_time] builds for [event]. *)
Definition busy_block (event : AppointmentItem) : AppointmentItem :=
  new_busy_event (Start event) (End_ event) (Subject event).

Definition is_booked (l : LogLine) : bool :=
  match l with LBooked _ _ => true | _ => false end.

(** What separates [w'] from [w]: the items that joined the target
    calendar, the lines printed and the COM calls made, in order. *)
Definition delta (w w' : World) (added : list AppointmentItem)
    (extra : list LogLine) (calls : list ComCall) : Prop :=
  Items (target_folder w') = Items (target_folder w) ++ added
  /\ Restrict_raises (target_folder w') = Restrict_raises (target_folder w)
  /\ Save_raises (target_folder w') = Save_raises (target_folder w)
  /\ stdout w' = stdout w ++ extra
  /\ com_calls w' = com_calls w ++ calls.

(** [b1] is returned by the overlap query made for the slot of [b2]: it
    starts before the minute in which [b2] ends and ends after the minute
    in which [b2] starts. *)
Definition clash (b1 b2 : AppointmentItem) : Prop :=
  Start b1 < instant_of_minute (strftime (End_ b2))
  /\ End_ b1 > instant_of_minute (strftime (Start b2)).

(** Arithmetic on sample clock readings. *)
Ltac clock_arith :=
  unfold start_within_tolerance, contains, timedelta_minutes,
    microseconds_per_minute, clock, appointment; simpl; lia.

(** * Properties *)

(** ** Sorting and filtering *)

Lemma In_insert_by_Start a x l :
  In x (insert_by_Start a l) <-> x = a \/ In x l.
Proof.
  induction l as [|b l IH]; simpl.
  - intuition.
  - destruct (Start a <=? Start b); simpl; rewrite ?IH; intuition.
Qed.

Lemma In_Sort_Start x l : In x (Sort_Start l) <-> In x l.
Proof.
  induction l as [|a l IH]; simpl; [tauto|].
  rewrite In_insert_by_Start, IH. intuition.
Qed.

Lemma In_conflicts_of tc start end_ c :
  In c (conflicts_of tc start end_) <->
  In c (Items tc) /\ satisfies (overlap_filter start end_) c = true.
Proof.
  unfold conflicts_of. rewrite filter_In, In_Sort_Start. tauto.
Qed.

Lemma satisfies_overlap_filter start end_ c :
  satisfies (overlap_filter start end_) c = true <->
  Start c < instant_of_minute (strftime end_) /\
  End_ c > instant_of_minute (strftime start).
Proof.
  simpl. rewrite andb_true_iff. unfold Z.gtb.
  rewrite Z.ltb_lt.
  destruct (End_ c ?= instant_of_minute (strftime start)) eqn:E.
  - apply Z.compare_eq in E. split; [intros [_ H]; discriminate | lia].
  - rewrite Z.compare_lt_iff in E. split; [intros [_ H]; discriminate | lia].
  - rewrite Z.compare_gt_iff in E. split; intros; split; try tauto; lia.
Qed.

Lemma matches_iff start end_ c :
  matches start end_ c = true <->
  start_within_tolerance c start \/ contains c start end_.
Proof.
  unfold matches, overlap_condition, start_within_tolerance, contains,
    replace_tzinfo_None, buffer.
  rewrite orb_true_iff, !andb_true_iff, !Z.leb_le, Z.geb_le. lia.
Qed.

(** ** The overlap test *)

Lemma readable_flags a :
  readable a = true ->
  Subject_raises a = false /\ Start_raises a = false /\ End_raises a = false.
Proof.
  unfold readable. rewrite !andb_true_iff, !negb_true_iff. tauto.
Qed.

Lemma scan_conflicts_find conflicts start end_ w :
  forallb readable conflicts = true ->
  scan_conflicts conflicts start end_ w =
  match find (matches start end_) conflicts with
  | Some c => (with_line (LOverlapFound (Subject c) (Start c) (End_ c)) w, inr true)
  | None => (w, inr false)
  end.
Proof.
  induction conflicts as [|c rest IH]; simpl; intros Hr; [reflexivity|].
  apply andb_true_iff in Hr. destruct Hr as [Hc Hrest].
  apply readable_flags in Hc. destruct Hc as (Hsub & Hs & He).
  unfold bind at 1, get_Start. rewrite Hs. unfold ret at 1.
  unfold bind at 1, get_End. rewrite He. unfold ret at 1.
  fold (matches start end_ c).
  destruct (matches start end_ c).
  - unfold bind, get_Subject. rewrite Hsub. reflexivity.
  - now apply IH.
Qed.

Lemma event_overlaps_find start end_ w :
  answers (target_folder w) start end_ ->
  event_overlaps start end_ w =
  let w1 := called (CallRestrict (overlap_filter start end_)) w in
  match find (matches start end_) (conflicts_of (target_folder w) start end_) with
  | Some c => (with_line (LOverlapFound (Subject c) (Start c) (End_ c)) w1, inr true)
  | None => (w1, inr false)
  end.
Proof.
  intros [Hq Hr].
  unfold event_overlaps, bind at 1, get_target, bind at 1, Restrict.
  rewrite Hq. fold (conflicts_of (target_folder w) start end_).
  now rewrite scan_conflicts_find.
Qed.

Lemma event_overlaps_true start end_ w c :
  answers (target_folder w) start end_ ->
  In c (conflicts_of (target_folder w) start end_) ->
  matches start end_ c = true ->
  snd (event_overlaps start end_ w) = inr true.
Proof.
  intros Ha Hin Hm. rewrite event_overlaps_find by assumption. cbv zeta.
  destruct (find _ _) eqn:F; [reflexivity|].
  rewrite (find_none _ _ F c Hin) in Hm. discriminate.
Qed.

Lemma event_overlaps_false start end_ w :
  answers (target_folder w) start end_ ->
  (forall c, In c (conflicts_of (target_folder w) start end_) ->
             matches start end_ c = false) ->
  snd (event_overlaps start end_ w) = inr false.
Proof.
  intros Ha Hno. rewrite event_overlaps_find by assumption. cbv zeta.
  destruct (find _ _) eqn:F; [|reflexivity].
  apply find_some in F. destruct F as [Hin Hm].
  rewrite (Hno _ Hin) in Hm. discriminate.
Qed.

(** ** Statements that never stop the run *)

Lemma quiet_refl w : quiet w w.
Proof.
  split; [reflexivity|]. exists []. now rewrite app_nil_r.
Qed.

Lemma quiet_trans w1 w2 w3 : quiet w1 w2 -> quiet w2 w3 -> quiet w1 w3.
Proof.
  intros [T1 (x1 & S1 & O1)] [T2 (x2 & S2 & O2)]. split; [congruence|].
  exists (x1 ++ x2). split.
  - rewrite S2, S1. now rewrite app_assoc.
  - unfold outcomes in *. rewrite filter_app, length_app. lia.
Qed.

Lemma quiet_called c w : quiet w (called c w).
Proof.
  split; [reflexivity|]. exists []. simpl. now rewrite app_nil_r.
Qed.

Lemma quiet_with_line l w : is_outcome l = false -> quiet w (with_line l w).
Proof.
  intros Hl. split; [reflexivity|]. exists [l]. split; [reflexivity|].
  unfold outcomes. simpl. now rewrite Hl.
Qed.

Lemma scan_conflicts_quiet conflicts start end_ w w' r :
  scan_conflicts conflicts start end_ w = (w', r) -> quiet w w'.
Proof.
  revert w w' r. induction conflicts as [|c rest IH]; simpl; intros w w' r H.
  - inversion H. apply quiet_refl.
  - unfold bind at 1, get_Start in H.
    destruct (Start_raises c).
    { inversion H. apply quiet_refl. }
    unfold ret at 1, bind at 1, get_End in H.
    destruct (End_raises c).
    { inversion H. apply quiet_refl. }
    unfold ret at 1 in H.
    destruct (overlap_condition _ _ _ _).
    + unfold bind, get_Subject in H. destruct (Subject_raises c).
      * inversion H. apply quiet_refl.
      * inversion H. now apply quiet_with_line.
    + eapply IH; eassumption.
Qed.

Lemma event_overlaps_quiet start end_ w w' r :
  event_overlaps start end_ w = (w', r) -> quiet w w'.
Proof.
  unfold event_overlaps, bind at 1, get_target, bind at 1, Restrict.
  destruct (Restrict_raises _ _); intros H.
  - inversion H. apply quiet_called.
  - apply scan_conflicts_quiet in H.
    eapply quiet_trans; [apply quiet_called | exact H].
Qed.

Lemma book_busy_time_body_eq event w :
  book_busy_time_body event w =
  if Start_raises event then (w, inl (ReadError PStart (Subject event)))
  else if End_raises event then (w, inl (ReadError PEnd (Subject event)))
  else if Subject_raises event then (w, inl (SubjectError (Subject event)))
  else
    let new_event := new_busy_event (Start event) (End_ event) (Subject event) in
    if Save_raises (target_folder w) new_event
    then (called (CallSave new_event) w, inl (ComError (CallSave new_event)))
    else (with_line (LBooked (Start event) (End_ event))
            (mkWorld (with_item new_event (target_folder w)) (stdout w)
                     (com_calls w ++ [CallSave new_event])),
          inr tt).
Proof.
  unfold book_busy_time_body, bind, get_Start, get_End, get_Subject, Save,
    ret, raise, print.
  destruct (Start_raises event); [reflexivity|].
  destruct (End_raises event); [reflexivity|].
  destruct (Subject_raises event); [reflexivity|].
  cbv zeta. destruct (Save_raises _ _); reflexivity.
Qed.

(** [book_busy_time] returns, whatever happens inside its [try]: either
    the block joined the calendar and the booking is printed, or the
    calendar is as before and the error is printed. *)
Lemma book_busy_time_returns event w :
  exists w' l,
    book_busy_time event w = (w', inr tt) /\
    stdout w' = stdout w ++ [l] /\
    ((l = LBooked (Start event) (End_ event) /\
      snd (book_busy_time_body event w) = inr tt /\
      target_folder w' =
        with_item (new_busy_event (Start event) (End_ event) (Subject event))
                  (target_folder w))
     \/ (exists e, l = LErrorCreating e /\
                   snd (book_busy_time_body event w) = inl e /\
                   target_folder w' = target_folder w)).
Proof.
  unfold book_busy_time, try_except. rewrite book_busy_time_body_eq.
  destruct (Start_raises event).
  { do 2 eexists. split; [reflexivity|]. split; [reflexivity|].
    right. eexists. repeat split. }
  destruct (End_raises event).
  { do 2 eexists. split; [reflexivity|]. split; [reflexivity|].
    right. eexists. repeat split. }
  destruct (Subject_raises event).
  { do 2 eexists. split; [reflexivity|]. split; [reflexivity|].
    right. eexists. repeat split. }
  cbv zeta. destruct (Save_raises _ _).
  { do 2 eexists. split; [reflexivity|]. split; [reflexivity|].
    right. eexists. repeat split. }
  do 2 eexists. split; [reflexivity|]. split; [reflexivity|].
  left. repeat split.
Qed.

Lemma process_event_body_eq event w :
  process_event_body event w =
  if Start_raises event then (w, inl (ReadError PStart (Subject event)))
  else if End_raises event then (w, inl (ReadError PEnd (Subject event)))
  else match event_overlaps (Start event) (End_ event) w with
       | (w1, inl e) => (w1, inl e)
       | (w1, inr true) =>
           (with_line (LConflicting (Start event) (End_ event)) w1, inr tt)
       | (w1, inr false) => book_busy_time event w1
       end.
Proof.
  unfold process_event_body, bind, get_Start, get_End, ret, raise, print,
    replace_tzinfo_None.
  destruct (Start_raises event); [reflexivity|].
  destruct (End_raises event); [reflexivity|].
  destruct (event_overlaps _ _ w) as [w1 [e|[|]]]; reflexivity.
Qed.

Lemma error_handler_eq event e w :
  error_handler event e w =
  if Subject_raises event then (w, inl (SubjectError (Subject event)))
  else (with_line (LErrorProcessing (Subject event) e) w, inr tt).
Proof.
  unfold error_handler, bind, get_Subject, ret, raise, print.
  now destruct (Subject_raises event).
Qed.

(** One iteration of the main loop, statement by statement. *)
Lemma process_event_eq event w :
  process_event event w =
  if Start_raises event
  then error_handler event (ReadError PStart (Subject event)) w
  else if End_raises event
  then error_handler event (ReadError PEnd (Subject event)) w
  else match event_overlaps (Start event) (End_ event) w with
       | (w1, inl e) => error_handler event e w1
       | (w1, inr true) =>
           (with_line (LConflicting (Start event) (End_ event)) w1, inr tt)
       | (w1, inr false) => book_busy_time event w1
       end.
Proof.
  unfold process_event, try_except. rewrite process_event_body_eq.
  destruct (Start_raises event); [reflexivity|].
  destruct (End_raises event); [reflexivity|].
  destruct (event_overlaps _ _ w) as [w1 [e|[|]]]; try reflexivity.
  destruct (book_busy_time_returns event w1) as (w2 & l & Hb & _).
  now rewrite Hb.
Qed.

(** One iteration of the main loop on an event whose subject can be read
    returns, and prints exactly one outcome line. *)
Lemma process_event_returns event w :
  Subject_raises event = false ->
  exists w' extra,
    process_event event w = (w', inr tt) /\
    stdout w' = stdout w ++ extra /\
    outcomes extra = 1%nat.
Proof.
  intros Hsub. rewrite process_event_eq, !error_handler_eq, Hsub.
  destruct (Start_raises event).
  { do 2 eexists. split; [reflexivity|]. split; reflexivity. }
  destruct (End_raises event).
  { do 2 eexists. split; [reflexivity|]. split; reflexivity. }
  destruct (event_overlaps (Start event) (End_ event) w) as [w1 r] eqn:Hov.
  apply event_overlaps_quiet in Hov. destruct Hov as [_ (x1 & S1 & O1)].
  destruct r as [e|[|]].
  - rewrite error_handler_eq, Hsub.
    exists (with_line (LErrorProcessing (Subject event) e) w1),
           (x1 ++ [LErrorProcessing (Subject event) e]).
    split; [reflexivity|]. split.
    + simpl. rewrite S1. now rewrite app_assoc.
    + unfold outcomes in *. rewrite filter_app, length_app, O1. reflexivity.
  - exists (with_line (LConflicting (Start event) (End_ event)) w1),
           (x1 ++ [LConflicting (Start event) (End_ event)]).
    split; [reflexivity|]. split.
    + simpl. rewrite S1. now rewrite app_assoc.
    + unfold outcomes in *. rewrite filter_app, length_app, O1. reflexivity.
  - destruct (book_busy_time_returns event w1) as (w2 & l & Hb & S2 & Hl).
    rewrite Hb. exists w2, (x1 ++ [l]). split; [reflexivity|]. split.
    + rewrite S2, S1. now rewrite app_assoc.
    + unfold outcomes in *. rewrite filter_app, length_app, O1.
      destruct Hl as [(-> & _)|(e & -> & _)]; reflexivity.
Qed.

Lemma main_loop_app before after w :
  main_loop (before ++ after) w =
  match main_loop before w with
  | (w1, inr _) => main_loop after w1
  | (w1, inl e) => (w1, inl e)
  end.
Proof.
  unfold main_loop. revert w.
  induction before as [|event rest IH]; intros w; simpl.
  - reflexivity.
  - unfold bind.
    destruct (process_event event w) as [w1 [e|[]]]; [reflexivity|].
    apply IH.
Qed.

Lemma main_loop_cons event rest w :
  main_loop (event :: rest) w =
  match process_event event w with
  | (w1, inr _) => main_loop rest w1
  | (w1, inl e) => (w1, inl e)
  end.
Proof.
  unfold main_loop. simpl. unfold bind.
  now destruct (process_event event w) as [w1 [e|[]]].
Qed.

(** The main loop over events whose subjects can be read returns, with
    one outcome line printed for each of them. *)
Lemma main_loop_returns events w :
  Forall (fun event => Subject_raises event = false) events ->
  exists w' extra,
    main_loop events w = (w', inr tt) /\
    stdout w' = stdout w ++ extra /\
    outcomes extra = List.length events.
Proof.
  intros Hall. revert w.
  induction Hall as [|event rest Hev _ IH]; intros w.
  - exists w, []. simpl. rewrite app_nil_r. repeat split.
  - destruct (process_event_returns event w Hev) as (w1 & x1 & H1 & S1 & O1).
    destruct (IH w1) as (w2 & x2 & H2 & S2 & O2).
    exists w2, (x1 ++ x2). split; [|split].
    + now rewrite main_loop_cons, H1.
    + rewrite S2, S1. now rewrite app_assoc.
    + unfold outcomes in *. rewrite filter_app, length_app, O1, O2.
      reflexivity.
Qed.

(** C2, as the specification words it, fails: a target appointment
    08:00-09:00 has the candidate start 09:00 within its tolerance window,
    yet the query of line 57 does not return it (its end is not after
    09:00) and the test answers [False]. *)
Lemma start_within_tolerance_back_to_back :
  ~ (forall (w : World) (start end_ : datetime) (existing : AppointmentItem),
        answers (target_folder w) start end_ ->
        In existing (Items (target_folder w)) ->
        start_within_tolerance existing start ->
        snd (event_overlaps start end_ w) = inr true).
Proof.
  intros H.
  specialize (H (fresh_world (steady [appointment "standup" (clock 8 0 0) (clock 9 0 0)]))
                (clock 9 0 0) (clock 10 0 0)
                (appointment "standup" (clock 8 0 0) (clock 9 0 0))).
  assert (E : snd (event_overlaps (clock 9 0 0) (clock 10 0 0)
                (fresh_world (steady [appointment "standup" (clock 8 0 0) (clock 9 0 0)])))
              = inr false) by (vm_compute; reflexivity).
  rewrite E in H.
  assert (C : @inr Exception bool false = inr true); [|discriminate C].
  apply H.
  - split; vm_compute; reflexivity.
  - simpl. left. reflexivity.
  - clock_arith.
Qed.

(** C2, amended: an existing interval that the overlap query returns and
    whose tolerance window (one minute on either side, bounds included)
    holds the candidate's start makes [event_overlaps] answer [True]. *)
Theorem start_within_tolerance_detected
    (w : World) (start end_ : datetime) (existing : AppointmentItem) :
  answers (target_folder w) start end_ ->
  In existing (Items (target_folder w)) ->
  satisfies (overlap_filter start end_) existing = true ->
  start_within_tolerance existing start ->
  snd (event_overlaps start end_ w) = inr true.
Proof.
  intros Ha Hin Hq Hrule.
  apply (event_overlaps_true start end_ w existing Ha).
  - apply In_conflicts_of. now split.
  - apply matches_iff. now left.
Qed.

Lemma start_within_tolerance_detected_witness :
  snd (event_overlaps (clock 9 0 0) (clock 10 0 0)
         (fresh_world (steady [appointment "review" (clock 9 1 0) (clock 10 0 0)])))
  = inr true.
Proof.
  apply (start_within_tolerance_detected _ _ _
           (appointment "review" (clock 9 1 0) (clock 10 0 0))).
  - split; vm_compute; reflexivity.
  - simpl. left. reflexivity.
  - vm_compute. reflexivity.
  - clock_arith.
Defined.

(** C3, as the specification words it, fails for a zero-length candidate
    that sits on the start of the existing interval: 09:00-10:00 contains
    the candidate 09:00-09:00, but the query asks for [Start] < 09:00 and
    does not return it. *)
Lemma containment_zero_length_on_boundary :
  ~ (forall (w : World) (start end_ : datetime) (existing : AppointmentItem),
        answers (target_folder w) start end_ ->
        In existing (Items (target_folder w)) ->
        contains existing start end_ ->
        snd (event_overlaps start end_ w) = inr true).
Proof.
  intros H.
  specialize (H (fresh_world (steady [appointment "workshop" (clock 9 0 0) (clock 10 0 0)]))
                (clock 9 0 0) (clock 9 0 0)
                (appointment "workshop" (clock 9 0 0) (clock 10 0 0))).
  assert (E : snd (event_overlaps (clock 9 0 0) (clock 9 0 0)
                (fresh_world (steady [appointment "workshop" (clock 9 0 0) (clock 10 0 0)])))
              = inr false) by (vm_compute; reflexivity).
  rewrite E in H.
  assert (C : @inr Exception bool false = inr true); [|discriminate C].
  apply H.
  - split; vm_compute; reflexivity.
  - simpl. left. reflexivity.
  - clock_arith.
Qed.

(** C3, amended: an existing interval that the overlap query returns and
    that contains the candidate ([existing.start <= candidate.start] and
    [existing.end >= candidate.end]) makes [event_overlaps] answer [True],
    however far its start is from the candidate's; a zero-length candidate
    goes through the same query and the same test. *)
Theorem containment_detected
    (w : World) (start end_ : datetime) (existing : AppointmentItem) :
  answers (target_folder w) start end_ ->
  In existing (Items (target_folder w)) ->
  satisfies (overlap_filter start end_) existing = true ->
  contains existing start end_ ->
  snd (event_overlaps start end_ w) = inr true.
Proof.
  intros Ha Hin Hq Hrule.
  apply (event_overlaps_true start end_ w existing Ha).
  - apply In_conflicts_of. now split.
  - apply matches_iff. now right.
Qed.

Lemma containment_detected_witness :
  snd (event_overlaps (clock 9 0 0) (clock 9 0 0)
         (fresh_world (steady [appointment "offsite" (clock 8 0 0) (clock 10 0 0)])))
  = inr true.
Proof.
  apply (containment_detected _ _ _
           (appointment "offsite" (clock 8 0 0) (clock 10 0 0))).
  - split; vm_compute; reflexivity.
  - simpl. left. reflexivity.
  - vm_compute. reflexivity.
  - clock_arith.
Defined.

(** A candidate whose start is before the minute of its end is returned
    every interval that contains it: for such candidates the containment
    rule holds against the whole target calendar. *)
Lemma contains_satisfies_overlap_filter start end_ existing :
  start < instant_of_minute (strftime end_) ->
  contains existing start end_ ->
  satisfies (overlap_filter start end_) existing = true.
Proof.
  unfold contains. intros Hlen [Hs He].
  apply satisfies_overlap_filter.
  unfold instant_of_minute, strftime, microseconds_per_minute in *.
  pose proof (Z.mul_div_le start 60000000 ltac:(lia)).
  pose proof (Z.mul_div_le end_ 60000000 ltac:(lia)).
  lia.
Qed.

(** C4: when the overlap query is answered and none of the intervals that
    it returns satisfies either rule, [event_overlaps] answers [False]; so
    it does when the query returns nothing at all. *)
Theorem no_match_no_overlap (w : World) (start end_ : datetime) :
  Restrict_raises (target_folder w) (overlap_filter start end_) = false ->
  (forallb readable (conflicts_of (target_folder w) start end_) = true ->
   (forall c, In c (conflicts_of (target_folder w) start end_) ->
              ~ (start_within_tolerance c start \/ contains c start end_)) ->
   snd (event_overlaps start end_ w) = inr false)
  /\ (conflicts_of (target_folder w) start end_ = [] ->
      snd (event_overlaps start end_ w) = inr false).
Proof.
  intros Hq. split.
  - intros Hr Hno. apply event_overlaps_false; [now split|].
    intros c Hin. specialize (Hno c Hin).
    destruct (matches start end_ c) eqn:E; [|reflexivity].
    apply matches_iff in E. contradiction.
  - intros Hnil. apply event_overlaps_false.
    + split; [assumption|]. now rewrite Hnil.
    + rewrite Hnil. intros c [].
Qed.

Lemma no_match_no_overlap_witness :
  snd (event_overlaps (clock 9 0 0) (clock 10 0 0)
         (fresh_world (steady [appointment "coffee" (clock 9 5 0) (clock 9 15 0)])))
  = inr false
  /\ snd (event_overlaps (clock 9 0 0) (clock 10 0 0) (fresh_world (steady [])))
     = inr false.
Proof.
  split.
  - refine (proj1 (no_match_no_overlap
             (fresh_world (steady [appointment "coffee" (clock 9 5 0) (clock 9 15 0)]))
             (clock 9 0 0) (clock 10 0 0) eq_refl) _ _).
    + vm_compute. reflexivity.
    + intros c Hin. vm_compute in Hin. destruct Hin as [<-|[]].
      clock_arith.
  - refine (proj2 (no_match_no_overlap (fresh_world (steady []))
                     (clock 9 0 0) (clock 10 0 0) eq_refl) _).
    reflexivity.
Defined.

(** ** The main loop and the run *)






Lemma sync_returns source_calendar START_DATE w :
  Restrict_raises source_calendar
    (fetch_filter START_DATE (START_DATE + timedelta_days 30)) = false ->
  Forall (fun event => Subject_raises event = false)
         (fetched source_calendar START_DATE (START_DATE + timedelta_days 30)) ->
  exists w' per_event,
    sync source_calendar START_DATE w = (w', inr tt) /\
    stdout w' = stdout w ++ per_event ++ [LSyncingComplete] /\
    outcomes per_event =
      List.length (fetched source_calendar START_DATE (START_DATE + timedelta_days 30)).
Proof.
  intros Hq Hsub. unfold sync. cbv zeta.
  unfold bind at 1, get_events, Restrict. rewrite Hq.
  fold (fetched source_calendar START_DATE (START_DATE + timedelta_days 30)).
  set (w0 := called _ w).
  destruct (main_loop_returns
              (fetched source_calendar START_DATE (START_DATE + timedelta_days 30))
              w0 Hsub)
    as (w1 & per_event & H1 & S1 & O1).
  exists (with_line LSyncingComplete w1), per_event.
  split; [|split].
  - unfold bind. rewrite H1. reflexivity.
  - simpl. rewrite S1. subst w0. simpl. now rewrite app_assoc.
  - assumption.
Qed.

(** C10: [book_busy_time] returns normally on every input - a failure
    inside its [try] ends in the line [Error creating event] and an
    untouched calendar.  So, for an event that is to be booked, the
    iteration of the main loop returns and the loop goes on with the next
    event from the world that [book_busy_time] left, whether the booking
    failed or went through; and a run whose fetch is answered and whose
    handler can print the subject of each event goes through all its
    events and ends with the same completion line, whatever [Save]
    does. *)
Theorem book_busy_time_swallows_failures :
  (forall (event : AppointmentItem) (w : World),
      exists w', book_busy_time event w = (w', inr tt) /\
        (forall e, snd (book_busy_time_body event w) = inl e ->
           target_folder w' = target_folder w /\
           stdout w' = stdout w ++ [LErrorCreating e]))
  /\ (forall (event : AppointmentItem) (rest : list AppointmentItem)
             (w w1 : World),
        Start_raises event = false ->
        End_raises event = false ->
        event_overlaps (replace_tzinfo_None (Start event))
                       (replace_tzinfo_None (End_ event)) w = (w1, inr false) ->
        exists w2,
          book_busy_time event w1 = (w2, inr tt) /\
          process_event event w = (w2, inr tt) /\
          main_loop (event :: rest) w = main_loop rest w2)
  /\ (forall (source_calendar : Folder) (START_DATE : datetime) (w : World),
        Restrict_raises source_calendar
          (fetch_filter START_DATE (START_DATE + timedelta_days 30)) = false ->
        Forall (fun event => Subject_raises event = false)
               (fetched source_calendar START_DATE (START_DATE + timedelta_days 30)) ->
        exists w' per_event,
          sync source_calendar START_DATE w = (w', inr tt) /\
          stdout w' = stdout w ++ per_event ++ [LSyncingComplete]).
Proof.
  split; [|split].
  - intros event w.
    destruct (book_busy_time_returns event w) as (w' & l & Hb & Hs & Hl).
    exists w'. split; [assumption|]. intros e He.
    destruct Hl as [(_ & Hok & _)|(e' & -> & He' & Ht)].
    + rewrite He in Hok. discriminate Hok.
    + rewrite He in He'. inversion He'. subst e'. now split.
  - intros event rest w w1 Hs He Hov. unfold replace_tzinfo_None in Hov.
    destruct (book_busy_time_returns event w1) as (w2 & l & Hb & _).
    exists w2. split; [assumption|].
    assert (Hp : process_event event w = (w2, inr tt))
      by now rewrite process_event_eq, Hs, He, Hov.
    split; [assumption|]. now rewrite main_loop_cons, Hp.
  - intros sc now w Hq Hsub.
    destruct (sync_returns sc now w Hq Hsub) as (w' & per_event & H & S & _).
    now exists w', per_event.
Qed.

Lemma book_busy_time_swallows_failures_witness :
  (exists w2,
     book_busy_time (appointment "lunch" (clock 12 0 0) (clock 13 0 0))
       (fst (event_overlaps (clock 12 0 0) (clock 13 0 0)
               (fresh_world (mkFolder [] (fun _ => false) (fun _ => true)))))
     = (w2, inr tt) /\
     process_event (appointment "lunch" (clock 12 0 0) (clock 13 0 0))
       (fresh_world (mkFolder [] (fun _ => false) (fun _ => true)))
     = (w2, inr tt) /\
     main_loop [appointment "lunch" (clock 12 0 0) (clock 13 0 0);
                appointment "review" (clock 14 0 0) (clock 15 0 0)]
       (fresh_world (mkFolder [] (fun _ => false) (fun _ => true)))
     = main_loop [appointment "review" (clock 14 0 0) (clock 15 0 0)] w2)
  /\ (exists w' per_event,
        sync (steady [appointment "lunch" (clock 12 0 0) (clock 13 0 0)]) (clock 8 0 30)
             (fresh_world (mkFolder [] (fun _ => false) (fun _ => true)))
          = (w', inr tt) /\
        stdout w' = [] ++ per_event ++ [LSyncingComplete]).
Proof.
  split.
  - apply (proj1 (proj2 book_busy_time_swallows_failures)
             (appointment "lunch" (clock 12 0 0) (clock 13 0 0))
             [appointment "review" (clock 14 0 0) (clock 15 0 0)]
             (fresh_world (mkFolder [] (fun _ => false) (fun _ => true)))).
    + reflexivity.
    + reflexivity.
    + vm_compute. reflexivity.
  - apply (proj2 (proj2 book_busy_time_swallows_failures)
             (steady [appointment "lunch" (clock 12 0 0) (clock 13 0 0)]) (clock 8 0 30)
             (fresh_world (mkFolder [] (fun _ => false) (fun _ => true)))).
    + reflexivity.
    + vm_compute. repeat constructor.
Defined.

(** ** Booking *)

(** C8: for a source event that is decided Book - its start and end are
    read, the overlap test answers [False] - and whose block is created
    - its subject is read for the body and [Save] goes through - the
    iteration adds one item to the target calendar: subject
    [Busy], the start and end of the source event, location
    [Reserved by Automation], busy status 2 (olBusy), and a body that
    quotes the subject of the source event. *)
Theorem booked_block_construction
    (event : AppointmentItem) (w w1 : World) :
  Start_raises event = false ->
  End_raises event = false ->
  event_overlaps (replace_tzinfo_None (Start event))
                 (replace_tzinfo_None (End_ event)) w = (w1, inr false) ->
  Subject_raises event = false ->
  Save_raises (target_folder w)
    (new_busy_event (Start event) (End_ event) (Subject event)) = false ->
  exists block,
    Items (target_folder (fst (process_event event w)))
      = Items (target_folder w) ++ [block] /\
    Subject block = "Busy"%string /\
    Start block = Start event /\
    End_ block = End_ event /\
    Location block = "Reserved by Automation"%string /\
    BusyStatus block = 2 /\
    Body block = String.append "Blocked due to event: " (Subject event).
Proof.
  intros Hs He Hov Hsub Hsave.
  exists (new_busy_event (Start event) (End_ event) (Subject event)).
  split; [|repeat split].
  pose proof (event_overlaps_quiet _ _ _ _ _ Hov) as [Ht _].
  unfold replace_tzinfo_None in Hov.
  rewrite process_event_eq, Hs, He, Hov.
  unfold book_busy_time, try_except. rewrite book_busy_time_body_eq.
  cbv zeta. rewrite Hs, He, Hsub, Ht, Hsave. reflexivity.
Qed.

Lemma booked_block_construction_witness :
  exists block,
    Items (target_folder
             (fst (process_event (appointment "Budget review" (clock 9 0 0) (clock 10 0 0))
                                 (fresh_world (steady [])))))
      = [] ++ [block] /\
    Subject block = "Busy"%string /\
    Start block = clock 9 0 0 /\
    End_ block = clock 10 0 0 /\
    Location block = "Reserved by Automation"%string /\
    BusyStatus block = 2 /\
    Body block = "Blocked due to event: Budget review"%string.
Proof.
  apply (booked_block_construction
           (appointment "Budget review" (clock 9 0 0) (clock 10 0 0))
           (fresh_world (steady []))
           (fst (event_overlaps (clock 9 0 0) (clock 10 0 0) (fresh_world (steady []))))).
  - reflexivity.
  - reflexivity.
  - vm_compute. reflexivity.
  - reflexivity.
  - reflexivity.
Defined.

(** ** Start of the run *)

Lemma get_calendar_prints_no_outcome accounts account_name calendar_name :
  outcomes (snd (get_calendar accounts account_name calendar_name)) = 0%nat.
Proof.
  induction accounts as [|account rest IH]; simpl; [reflexivity|].
  destruct (String.eqb _ _); [|assumption].
  destruct (lookup_folder _ _); [reflexivity|].
  destruct (get_calendar rest account_name calendar_name) as [r out].
  simpl in *. assumption.
Qed.

(** C6, as the specification words it, fails on the exit status: with no
    account at all the source calendar is not resolved, and [exit()]
    ends the process with status 0. *)
Lemma unresolved_calendar_exit_status_is_zero :
  ~ (forall (namespace_Folders : list Account) (now : datetime),
        fst (get_calendar namespace_Folders SOURCE_ACCOUNT CALENDAR_NAME) = None \/
        fst (get_calendar namespace_Folders TARGET_ACCOUNT CALENDAR_NAME) = None ->
        calls_made (main namespace_Folders now) = [] /\
        exit_status (main namespace_Folders now) <> 0).
Proof.
  intros H. destruct (H [] (clock 8 0 30)) as [_ Hexit].
  - left. reflexivity.
  - apply Hexit. reflexivity.
Qed.

(** C6, amended: if either calendar is not resolved, the run stops before
    any event is fetched or processed - no [Restrict] and no [Save] call
    is made, no outcome line is printed, no target calendar is touched -
    and the process ends through [exit()], with status 0. *)
Theorem unresolved_calendar_aborts
    (namespace_Folders : list Account) (now : datetime) :
  fst (get_calendar namespace_Folders SOURCE_ACCOUNT CALENDAR_NAME) = None \/
  fst (get_calendar namespace_Folders TARGET_ACCOUNT CALENDAR_NAME) = None ->
  calls_made (main namespace_Folders now) = [] /\
  target_after (main namespace_Folders now) = None /\
  outcomes (printed (main namespace_Folders now)) = 0%nat /\
  exit_status (main namespace_Folders now) = 0.
Proof.
  intros H. unfold main.
  pose proof (get_calendar_prints_no_outcome namespace_Folders SOURCE_ACCOUNT CALENDAR_NAME) as O1.
  pose proof (get_calendar_prints_no_outcome namespace_Folders TARGET_ACCOUNT CALENDAR_NAME) as O2.
  destruct (get_calendar namespace_Folders SOURCE_ACCOUNT CALENDAR_NAME) as [sc out1].
  destruct (get_calendar namespace_Folders TARGET_ACCOUNT CALENDAR_NAME) as [tc out2].
  simpl in H, O1, O2.
  assert (Hout : forall l, is_outcome l = false ->
            outcomes ([LSyncing SOURCE_ACCOUNT TARGET_ACCOUNT CALENDAR_NAME]
                        ++ out1 ++ out2 ++ [l]) = 0%nat).
  { intros l Hl. unfold outcomes in *.
    rewrite !filter_app, !length_app, O1, O2. simpl. now rewrite Hl. }
  destruct sc as [sc|].
  - destruct tc as [tc|].
    + destruct H; discriminate.
    + simpl. repeat split. now apply Hout.
  - simpl. repeat split. now apply Hout.
Qed.

Lemma unresolved_calendar_aborts_witness :
  calls_made (main [mkAccount SOURCE_ACCOUNT [(CALENDAR_NAME, steady [])]] (clock 8 0 30)) = [] /\
  target_after (main [mkAccount SOURCE_ACCOUNT [(CALENDAR_NAME, steady [])]] (clock 8 0 30)) = None /\
  outcomes (printed (main [mkAccount SOURCE_ACCOUNT [(CALENDAR_NAME, steady [])]] (clock 8 0 30))) = 0%nat /\
  exit_status (main [mkAccount SOURCE_ACCOUNT [(CALENDAR_NAME, steady [])]] (clock 8 0 30)) = 0.
Proof.
  apply (unresolved_calendar_aborts
           [mkAccount SOURCE_ACCOUNT [(CALENDAR_NAME, steady [])]] (clock 8 0 30)).
  right. vm_compute. reflexivity.
Defined.

(** ** End of the run *)

(** C7, as the specification words it, fails: the last thing a run
    prints is the fixed line [Syncing complete.], the same after a run
    that booked one event and after a run that had none to process, so no
    report of counts can be read from it. *)
Lemma completion_line_carries_no_counts :
  ~ (exists summary : LogLine -> spec_SyncReport,
       forall (namespace_Folders : list Account) (now : datetime),
         summary (last (printed (main namespace_Folders now)) LSyncingComplete)
         = spec_tally (printed (main namespace_Folders now))).
Proof.
  intros [summary H].
  pose proof (H (mailboxes (steady [appointment "lunch" (clock 12 0 0) (clock 13 0 0)])
                           (steady []))
                (clock 8 0 30)) as H1.
  pose proof (H (mailboxes (steady []) (steady [])) (clock 8 0 30)) as H0.
  vm_compute in H1, H0.
  rewrite H1 in H0. discriminate H0.
Qed.

(** C7, amended: when both calendars are resolved, the fetch is answered
    and the subject of every fetched event can be read (the handler of
    line 116 prints it), the run processes every fetched event, printing
    one outcome line for each, then prints the fixed completion line -
    which carries no count - and ends with status 0. *)
Theorem run_ends_with_completion_line
    (namespace_Folders : list Account) (now : datetime)
    (source_calendar target_calendar : Folder) (out1 out2 : list LogLine) :
  get_calendar namespace_Folders SOURCE_ACCOUNT CALENDAR_NAME
    = (Some source_calendar, out1) ->
  get_calendar namespace_Folders TARGET_ACCOUNT CALENDAR_NAME
    = (Some target_calendar, out2) ->
  Restrict_raises source_calendar
    (fetch_filter now (now + timedelta_days 30)) = false ->
  Forall (fun event => Subject_raises event = false)
         (fetched source_calendar now (now + timedelta_days 30)) ->
  exists per_event,
    printed (main namespace_Folders now)
      = ([LSyncing SOURCE_ACCOUNT TARGET_ACCOUNT CALENDAR_NAME] ++ out1 ++ out2)
        ++ per_event ++ [LSyncingComplete] /\
    outcomes per_event
      = List.length (fetched source_calendar now (now + timedelta_days 30)) /\
    exit_status (main namespace_Folders now) = 0.
Proof.
  intros Hsrc Htgt Hq Hsub. unfold main. rewrite Hsrc, Htgt.
  destruct (sync_returns source_calendar now
              (mkWorld target_calendar
                 ([LSyncing SOURCE_ACCOUNT TARGET_ACCOUNT CALENDAR_NAME] ++ out1 ++ out2) [])
              Hq Hsub) as (w' & per_event & Hsync & Hout & Hn).
  rewrite Hsync. exists per_event. simpl in *. repeat split; assumption.
Qed.

Lemma run_ends_with_completion_line_witness :
  exists per_event,
    printed (main (mailboxes (steady [appointment "lunch" (clock 12 0 0) (clock 13 0 0)])
                             (steady [])) (clock 8 0 30))
      = ([LSyncing SOURCE_ACCOUNT TARGET_ACCOUNT CALENDAR_NAME] ++ [] ++ [])
        ++ per_event ++ [LSyncingComplete] /\
    outcomes per_event
      = List.length (fetched (steady [appointment "lunch" (clock 12 0 0) (clock 13 0 0)])
                             (clock 8 0 30) (clock 8 0 30 + timedelta_days 30)) /\
    exit_status (main (mailboxes (steady [appointment "lunch" (clock 12 0 0) (clock 13 0 0)])
                                 (steady [])) (clock 8 0 30)) = 0.
Proof.
  apply (run_ends_with_completion_line
           (mailboxes (steady [appointment "lunch" (clock 12 0 0) (clock 13 0 0)])
                      (steady []))
           (clock 8 0 30)
           (steady [appointment "lunch" (clock 12 0 0) (clock 13 0 0)])
           (steady []) [] []).
  - reflexivity.
  - reflexivity.
  - reflexivity.
  - vm_compute. repeat constructor.
Defined.

(** ** The fetch *)

Lemma satisfies_fetch_filter start_date end_date a :
  satisfies (fetch_filter start_date end_date) a = true <->
  instant_of_minute (strftime start_date) <= Start a /\
  End_ a <= instant_of_minute (strftime end_date).
Proof.
  simpl. now rewrite andb_true_iff, Z.geb_le, Z.leb_le.
Qed.

Lemma instant_of_minute_strftime_le d : instant_of_minute (strftime d) <= d.
Proof.
  unfold instant_of_minute, strftime, microseconds_per_minute.
  pose proof (Z.mul_div_le d 60000000 ltac:(lia)). lia.
Qed.

(** C9, as the specification words it, fails on the bounds: the filter
    string is printed to the minute, so with a run started at 09:00:30 an
    appointment that started at 09:00:00 is fetched although it starts
    before the window does. *)
Lemma fetch_window_is_cut_to_the_minute :
  ~ (forall (calendar_folder : Folder) (start_date end_date : datetime)
            (w w' : World) (source_events : list AppointmentItem),
        get_events calendar_folder start_date end_date w = (w', inr source_events) ->
        forall a, In a source_events <->
                  In a (Items calendar_folder) /\
                  start_date <= Start a /\ End_ a <= end_date).
Proof.
  intros H.
  specialize (H (steady [appointment "call" (clock 9 0 0) (clock 9 30 0)])
                (clock 9 0 30) (clock 9 0 30 + timedelta_days 30)
                (fresh_world (steady [])) _ _ eq_refl
                (appointment "call" (clock 9 0 0) (clock 9 30 0))).
  destruct H as [H _].
  destruct H as (_ & Hstart & _).
  - vm_compute. left. reflexivity.
  - vm_compute in Hstart. apply Hstart. reflexivity.
Qed.

(** C9, amended: the fetch is containment, not intersection, with the
    bounds of the window cut to the minute: it returns exactly the items
    with [start >= window.start] and [end <= window.end], both bounds
    without their seconds.  An item that ends after the window does is
    not fetched, and the main loop of the run goes over the fetched items
    only. *)
Theorem fetch_is_containment
    (calendar_folder : Folder) (start_date end_date : datetime) (w : World) :
  Restrict_raises calendar_folder (fetch_filter start_date end_date) = false ->
  exists w' source_events,
    get_events calendar_folder start_date end_date w = (w', inr source_events) /\
    (forall a, In a source_events <->
               In a (Items calendar_folder) /\
               instant_of_minute (strftime start_date) <= Start a /\
               End_ a <= instant_of_minute (strftime end_date)) /\
    (forall a, End_ a > end_date -> ~ In a source_events) /\
    (end_date = start_date + timedelta_days 30 ->
     sync calendar_folder start_date w
       = (main_loop source_events ;;; print LSyncingComplete) w').
Proof.
  intros Hq.
  exists (called (CallRestrict (fetch_filter start_date end_date)) w),
         (fetched calendar_folder start_date end_date).
  assert (Hget : get_events calendar_folder start_date end_date w
                 = (called (CallRestrict (fetch_filter start_date end_date)) w,
                    inr (fetched calendar_folder start_date end_date))).
  { unfold get_events, Restrict. now rewrite Hq. }
  assert (Hin : forall a, In a (fetched calendar_folder start_date end_date) <->
               In a (Items calendar_folder) /\
               instant_of_minute (strftime start_date) <= Start a /\
               End_ a <= instant_of_minute (strftime end_date)).
  { intros a. unfold fetched.
    now rewrite filter_In, In_Sort_Start, satisfies_fetch_filter. }
  split; [assumption|]. split; [assumption|]. split.
  - intros a Hlate Hina. apply Hin in Hina. destruct Hina as (_ & _ & He).
    pose proof (instant_of_minute_strftime_le end_date). lia.
  - intros ->. unfold sync. cbv zeta. unfold bind at 1. now rewrite Hget.
Qed.

Lemma fetch_is_containment_witness :
  exists w' source_events,
    get_events (steady [appointment "call" (clock 9 0 0) (clock 9 30 0);
                        appointment "trip" (clock 700 0 0) (clock 740 0 0)])
               (clock 9 0 30) (clock 9 0 30 + timedelta_days 30)
               (fresh_world (steady []))
      = (w', inr source_events) /\
    (forall a, In a source_events <->
               In a [appointment "call" (clock 9 0 0) (clock 9 30 0);
                     appointment "trip" (clock 700 0 0) (clock 740 0 0)] /\
               instant_of_minute (strftime (clock 9 0 30)) <= Start a /\
               End_ a <= instant_of_minute (strftime (clock 9 0 30 + timedelta_days 30))) /\
    (forall a, End_ a > clock 9 0 30 + timedelta_days 30 -> ~ In a source_events) /\
    (clock 9 0 30 + timedelta_days 30 = clock 9 0 30 + timedelta_days 30 ->
     sync (steady [appointment "call" (clock 9 0 0) (clock 9 30 0);
                   appointment "trip" (clock 700 0 0) (clock 740 0 0)])
          (clock 9 0 30) (fresh_world (steady []))
       = (main_loop source_events ;;; print LSyncingComplete) w').
Proof.
  apply (fetch_is_containment
           (steady [appointment "call" (clock 9 0 0) (clock 9 30 0);
                    appointment "trip" (clock 700 0 0) (clock 740 0 0)])
           (clock 9 0 30) (clock 9 0 30 + timedelta_days 30)
           (fresh_world (steady []))).
  reflexivity.
Defined.

(** ** Running twice *)

Lemma event_overlaps_raises start end_ w :
  Restrict_raises (target_folder w) (overlap_filter start end_) = true ->
  event_overlaps start end_ w =
  (called (CallRestrict (overlap_filter start end_)) w,
   inl (ComError (CallRestrict (overlap_filter start end_)))).
Proof.
  intros Hq. unfold event_overlaps, bind, get_target, Restrict.
  now rewrite Hq.
Qed.

Lemma readable_conflicts tc start end_ :
  forallb readable (Items tc) = true ->
  forallb readable (conflicts_of tc start end_) = true.
Proof.
  rewrite !forallb_forall. intros H c Hc.
  apply In_conflicts_of in Hc. now apply H.
Qed.

Lemma existsb_hit_find tc event :
  existsb (hit event) (Items tc) =
  match find (matches (Start event) (End_ event))
             (conflicts_of tc (Start event) (End_ event)) with
  | Some _ => true
  | None => false
  end.
Proof.
  destruct (find _ _) eqn:F.
  - apply find_some in F. destruct F as [Hin Hm].
    apply In_conflicts_of in Hin. destruct Hin as [Hin Hq].
    apply existsb_exists. exists a. split; [assumption|].
    unfold hit. now rewrite Hq, Hm.
  - destruct (existsb _ _) eqn:E; [|reflexivity].
    apply existsb_exists in E. destruct E as (c & Hin & Hhit).
    unfold hit in Hhit. apply andb_true_iff in Hhit. destruct Hhit as [Hq Hm].
    rewrite (find_none _ _ F c) in Hm; [discriminate|].
    apply In_conflicts_of. now split.
Qed.

Lemma process_event_target event w :
  forallb readable (Items (target_folder w)) = true ->
  target_folder (fst (process_event event w))
  = next_folder (target_folder w) event.
Proof.
  intros Hr.
  assert (Hh : forall e w1, target_folder (fst (error_handler event e w1))
                            = target_folder w1).
  { intros e w1. rewrite error_handler_eq.
    now destruct (Subject_raises event). }
  unfold next_folder. rewrite process_event_eq.
  destruct (Start_raises event) eqn:Hs; [apply Hh|].
  destruct (End_raises event) eqn:He; [apply Hh|].
  cbn [orb].
  destruct (Restrict_raises (target_folder w)
              (overlap_filter (Start event) (End_ event))) eqn:Hq.
  { now rewrite event_overlaps_raises, Hh. }
  rewrite event_overlaps_find
    by (split; [assumption | now apply readable_conflicts]).
  cbv zeta. rewrite existsb_hit_find.
  destruct (find _ _); [reflexivity|].
  unfold book_busy_time, try_except. rewrite book_busy_time_body_eq.
  rewrite Hs, He. destruct (Subject_raises event); [reflexivity|].
  cbv zeta. cbn [target_folder called].
  destruct (Save_raises _ _); reflexivity.
Qed.

Lemma process_event_status event w :
  forallb readable (Items (target_folder w)) = true ->
  if aborts (target_folder w) event
  then exists e, snd (process_event event w) = inl e
  else snd (process_event event w) = inr tt.
Proof.
  intros Hr. unfold aborts. rewrite process_event_eq, !error_handler_eq.
  destruct (Start_raises event) eqn:Hs.
  { cbn [orb andb]. destruct (Subject_raises event); [eexists|]; reflexivity. }
  destruct (End_raises event) eqn:He.
  { cbn [orb andb]. destruct (Subject_raises event); [eexists|]; reflexivity. }
  cbn [orb].
  destruct (Restrict_raises (target_folder w)
              (overlap_filter (Start event) (End_ event))) eqn:Hq.
  { rewrite event_overlaps_raises, error_handler_eq by assumption.
    cbn [andb]. destruct (Subject_raises event); [eexists|]; reflexivity. }
  rewrite event_overlaps_find
    by (split; [assumption | now apply readable_conflicts]).
  cbv zeta. cbn [andb].
  destruct (find _ _); [reflexivity|].
  destruct (book_busy_time_returns event
              (called (CallRestrict (overlap_filter (Start event) (End_ event))) w))
    as (w2 & l & Hb & _).
  now rewrite Hb.
Qed.

Lemma extends_refl tc : extends tc tc.
Proof. repeat split; auto. Qed.

Lemma extends_trans t1 t2 t3 : extends t1 t2 -> extends t2 t3 -> extends t1 t3.
Proof.
  intros (I1 & R1 & S1) (I2 & R2 & S2). repeat split; [auto | congruence ..].
Qed.

Lemma extends_next_folder tc event : extends tc (next_folder tc event).
Proof.
  unfold next_folder.
  destruct (_ || _); [apply extends_refl|].
  destruct (Restrict_raises _ _); [apply extends_refl|].
  destruct (existsb _ _); [apply extends_refl|].
  destruct (Subject_raises event); [apply extends_refl|].
  cbv zeta. destruct (Save_raises _ _); [apply extends_refl|].
  repeat split. intros c Hc. simpl. apply in_or_app. now left.
Qed.

Lemma extends_fold events tc : extends tc (fold_left next_folder events tc).
Proof.
  revert tc. induction events as [|event rest IH]; intros tc; simpl.
  - apply extends_refl.
  - eapply extends_trans; [apply extends_next_folder | apply IH].
Qed.

Lemma readable_next_folder tc event :
  forallb readable (Items tc) = true ->
  forallb readable (Items (next_folder tc event)) = true.
Proof.
  intros Hr. unfold next_folder.
  destruct (_ || _); [assumption|].
  destruct (Restrict_raises _ _); [assumption|].
  destruct (existsb _ _); [assumption|].
  destruct (Subject_raises event); [assumption|].
  cbv zeta. destruct (Save_raises _ _); [assumption|].
  simpl. rewrite forallb_app, Hr. reflexivity.
Qed.

Lemma readable_fold events tc :
  forallb readable (Items tc) = true ->
  forallb readable (Items (fold_left next_folder events tc)) = true.
Proof.
  revert tc. induction events as [|event rest IH]; intros tc Hr; simpl.
  - assumption.
  - apply IH. now apply readable_next_folder.
Qed.

Lemma reached_ext tc tc' events :
  Restrict_raises tc' = Restrict_raises tc ->
  reached tc' events = reached tc events.
Proof.
  intros HR. induction events as [|event rest IH]; simpl; [reflexivity|].
  unfold aborts. now rewrite HR, IH.
Qed.

Lemma In_reached tc events event :
  In event (reached tc events) -> In event events.
Proof.
  induction events as [|ev rest IH]; simpl; [tauto|].
  destruct (aborts tc ev); simpl; intuition.
Qed.

Lemma main_loop_target events w :
  forallb readable (Items (target_folder w)) = true ->
  target_folder (fst (main_loop events w))
  = fold_left next_folder (reached (target_folder w) events) (target_folder w).
Proof.
  revert w. induction events as [|event rest IH]; intros w Hr; [reflexivity|].
  pose proof (process_event_target event w Hr) as Ht.
  pose proof (process_event_status event w Hr) as Hst.
  rewrite main_loop_cons. cbn [reached].
  destruct (process_event event w) as [w1 r]. simpl in Ht, Hst.
  destruct (aborts (target_folder w) event).
  - destruct Hst as [e ->]. simpl. assumption.
  - subst r. simpl. rewrite IH by (rewrite Ht; now apply readable_next_folder).
    rewrite Ht.
    now rewrite (reached_ext (target_folder w) (next_folder (target_folder w) event))
      by apply extends_next_folder.
Qed.

(** The block booked for an event that starts before the minute of its
    end makes the overlap test of that event answer [True]. *)
Lemma own_block_hits event :
  starts_before_end_minute event ->
  hit event (new_busy_event (Start event) (End_ event) (Subject event)) = true.
Proof.
  unfold starts_before_end_minute. intros Hlen.
  pose proof (instant_of_minute_strftime_le (Start event)).
  pose proof (instant_of_minute_strftime_le (End_ event)).
  unfold hit. apply andb_true_iff. split.
  - apply satisfies_overlap_filter. simpl. lia.
  - apply matches_iff. left.
    unfold start_within_tolerance, timedelta_minutes, microseconds_per_minute.
    simpl. lia.
Qed.

(** Once an event has been through the loop, it leaves any later state of
    the target calendar as it is. *)
Lemma settled_after_processing tc tc' event :
  starts_before_end_minute event ->
  extends (next_folder tc event) tc' ->
  next_folder tc' event = tc'.
Proof.
  intros Hlen Hext.
  pose proof (extends_trans _ _ _ (extends_next_folder tc event) Hext)
    as (Hin & HR & HS).
  destruct Hext as (Hin' & _ & _).
  unfold next_folder in *.
  destruct (_ || _); [reflexivity|].
  rewrite HR.
  destruct (Restrict_raises tc _); [reflexivity|].
  destruct (existsb (hit event) (Items tc')) eqn:E'; [reflexivity|].
  cbv zeta in *. rewrite HS.
  assert (Hnone : forall c, In c (Items tc') -> hit event c = false).
  { intros c Hc. destruct (hit event c) eqn:Hh; [|reflexivity].
    assert (existsb (hit event) (Items tc') = true)
      by (apply existsb_exists; now exists c).
    congruence. }
  destruct (existsb (hit event) (Items tc)) eqn:E.
  { apply existsb_exists in E. destruct E as (c & Hc & Hh).
    rewrite (Hnone c (Hin c Hc)) in Hh. discriminate. }
  destruct (Subject_raises event); [reflexivity|].
  destruct (Save_raises tc _); [reflexivity|].
  exfalso.
  pose proof (own_block_hits event Hlen) as Hh.
  rewrite Hnone in Hh; [discriminate|].
  apply Hin'. simpl. apply in_or_app. right. now left.
Qed.

Lemma fold_settled events tc :
  Forall (fun event => next_folder tc event = tc) events ->
  fold_left next_folder events tc = tc.
Proof.
  induction 1 as [|event rest Hev _ IH]; simpl; [reflexivity|].
  now rewrite Hev.
Qed.

Lemma all_settled_after_run events :
  Forall starts_before_end_minute events ->
  forall tc,
    Forall (fun event =>
              next_folder (fold_left next_folder events tc) event
              = fold_left next_folder events tc) events.
Proof.
  induction 1 as [|event rest Hev _ IH]; intros tc; simpl; constructor.
  - apply (settled_after_processing tc); [assumption|]. apply extends_fold.
  - apply IH.
Qed.

Lemma sync_target source_calendar START_DATE w :
  forallb readable (Items (target_folder w)) = true ->
  target_folder (fst (sync source_calendar START_DATE w)) =
  if Restrict_raises source_calendar
       (fetch_filter START_DATE (START_DATE + timedelta_days 30))
  then target_folder w
  else fold_left next_folder
         (reached (target_folder w)
            (fetched source_calendar START_DATE (START_DATE + timedelta_days 30)))
         (target_folder w).
Proof.
  intros Hr. unfold sync. cbv zeta. unfold bind at 1, get_events, Restrict.
  destruct (Restrict_raises _ _); [reflexivity|].
  fold (fetched source_calendar START_DATE (START_DATE + timedelta_days 30)).
  set (w0 := called _ w).
  pose proof (main_loop_target
                (fetched source_calendar START_DATE (START_DATE + timedelta_days 30))
                w0 Hr) as Ht.
  unfold bind.
  destruct (main_loop _ w0) as [w1 [e|[]]]; simpl in *; exact Ht.
Qed.

(** C1, as the specification words it, fails for a zero-length event: the
    overlap query of a 09:00-09:00 event asks for items that start before
    09:00, so the block that the first run booked for it is not returned
    and the second run books it again. *)
Lemma zero_length_event_is_booked_again :
  ~ (forall (source_calendar : Folder) (START_DATE : datetime) (w w2 : World),
        forallb readable (Items (target_folder w)) = true ->
        target_folder w2 = target_folder (fst (sync source_calendar START_DATE w)) ->
        target_folder (fst (sync source_calendar START_DATE w2)) = target_folder w2).
Proof.
  intros H.
  specialize (H (steady [appointment "reminder" (clock 9 0 0) (clock 9 0 0)])
                (clock 8 0 30) (fresh_world (steady []))
                (fst (sync (steady [appointment "reminder" (clock 9 0 0) (clock 9 0 0)])
                           (clock 8 0 30) (fresh_world (steady []))))
                eq_refl eq_refl).
  apply (f_equal (fun tc => List.length (Items tc))) in H.
  vm_compute in H. discriminate H.
Qed.

(** C1, amended: when every source event starts before the minute of its
    end, a second run against the same source calendar, started on the
    target calendar that the first run left, creates no busy block: the
    target calendar is the same after it.  In that second run every
    fetched event whose block is on the target calendar is detected as
    overlapping, provided its overlap query is answered. *)
Theorem second_run_books_nothing
    (source_calendar : Folder) (START_DATE : datetime) (w w2 : World) :
  forallb readable (Items (target_folder w)) = true ->
  (forall event, In event (Items source_calendar) ->
                 starts_before_end_minute event) ->
  target_folder w2 = target_folder (fst (sync source_calendar START_DATE w)) ->
  target_folder (fst (sync source_calendar START_DATE w2)) = target_folder w2
  /\ (forall event,
        In event (fetched source_calendar START_DATE (START_DATE + timedelta_days 30)) ->
        In (new_busy_event (Start event) (End_ event) (Subject event))
           (Items (target_folder w2)) ->
        Restrict_raises (target_folder w2)
          (overlap_filter (Start event) (End_ event)) = false ->
        snd (event_overlaps (Start event) (End_ event) w2) = inr true).
Proof.
  intros Hr Hlen H2.
  set (events := fetched source_calendar START_DATE (START_DATE + timedelta_days 30)).
  assert (Hev : Forall starts_before_end_minute events).
  { apply Forall_forall. intros event Hin. apply Hlen.
    unfold events, fetched in Hin. apply filter_In in Hin.
    now apply In_Sort_Start. }
  rewrite sync_target in H2 by assumption.
  assert (Hr2 : forallb readable (Items (target_folder w2)) = true).
  { rewrite H2. destruct (Restrict_raises _ _); [assumption|].
    now apply readable_fold. }
  split.
  - rewrite sync_target by assumption.
    destruct (Restrict_raises _ _); [reflexivity|].
    fold events in H2 |- *.
    assert (Hsame : reached (target_folder w2) events
                    = reached (target_folder w) events).
    { apply reached_ext. rewrite H2. apply extends_fold. }
    rewrite Hsame, H2.
    apply fold_settled. apply all_settled_after_run.
    apply Forall_forall. intros event Hin.
    rewrite Forall_forall in Hev. apply Hev. eapply In_reached; eassumption.
  - intros event Hin Hblock Hq.
    apply (event_overlaps_true _ _ _
             (new_busy_event (Start event) (End_ event) (Subject event))).
    + split; [assumption | now apply readable_conflicts].
    + pose proof (own_block_hits event) as Hh.
      rewrite Forall_forall in Hev. specialize (Hh (Hev event Hin)).
      unfold hit in Hh. apply andb_true_iff in Hh.
      apply In_conflicts_of. now split.
    + pose proof (own_block_hits event) as Hh.
      rewrite Forall_forall in Hev. specialize (Hh (Hev event Hin)).
      unfold hit in Hh. apply andb_true_iff in Hh. apply Hh.
Qed.

Lemma second_run_books_nothing_witness :
  target_folder
    (fst (sync lunch_calendar (clock 8 0 30)
            (fst (sync lunch_calendar (clock 8 0 30) (fresh_world (steady []))))))
  = target_folder (fst (sync lunch_calendar (clock 8 0 30) (fresh_world (steady []))))
  /\ (forall event,
        In event (fetched lunch_calendar (clock 8 0 30)
                          (clock 8 0 30 + timedelta_days 30)) ->
        In (new_busy_event (Start event) (End_ event) (Subject event))
           (Items (target_folder
                     (fst (sync lunch_calendar (clock 8 0 30)
                             (fresh_world (steady [])))))) ->
        Restrict_raises
          (target_folder (fst (sync lunch_calendar (clock 8 0 30)
                                 (fresh_world (steady [])))))
          (overlap_filter (Start event) (End_ event)) = false ->
        snd (event_overlaps (Start event) (End_ event)
               (fst (sync lunch_calendar (clock 8 0 30) (fresh_world (steady [])))))
        = inr true).
Proof.
  apply (second_run_books_nothing lunch_calendar (clock 8 0 30)
           (fresh_world (steady []))
           (fst (sync lunch_calendar (clock 8 0 30) (fresh_world (steady []))))).
  - reflexivity.
  - intros event [<-|[]]. vm_compute. reflexivity.
  - reflexivity.
Defined.

(** * Further properties *)

(** ** Resolving a calendar *)

(** X1: [get_calendar] returns the calendar of the first account of that
    name whose [Folders(calendar_name)] call goes through; it has printed
    one [Error accessing calendar] line for each account of that name
    that it tried before, and nothing else. *)
Theorem get_calendar_first_match
    (before after : list Account) (account : Account)
    (account_name calendar_name : string) (folder : Folder) :
  Name account = account_name ->
  lookup_folder calendar_name (Folders account) = Some folder ->
  (forall b, In b before -> Name b = account_name ->
             lookup_folder calendar_name (Folders b) = None) ->
  get_calendar (before ++ account :: after) account_name calendar_name
  = (Some folder,
     map (fun _ => LErrorAccessing calendar_name account_name)
         (filter (named account_name) before)).
Proof.
  intros Hname Hfound.
  induction before as [|b before IH]; intros Hfail; simpl.
  - rewrite Hname, String.eqb_refl, Hfound. reflexivity.
  - unfold named at 1. destruct (String.eqb (Name b) account_name) eqn:E.
    + apply String.eqb_eq in E.
      rewrite (Hfail b (or_introl eq_refl) E).
      rewrite IH by (intros b' Hb'; apply Hfail; now right).
      reflexivity.
    + apply IH. intros b' Hb'. apply Hfail. now right.
Qed.

Lemma get_calendar_first_match_witness :
  get_calendar
    ([mkAccount "archive" [(CALENDAR_NAME, steady [])];
      mkAccount SOURCE_ACCOUNT [("Inbox"%string, steady [])]]
     ++ mkAccount SOURCE_ACCOUNT [(CALENDAR_NAME, lunch_calendar)]
     :: [mkAccount SOURCE_ACCOUNT [(CALENDAR_NAME, steady [])]])
    SOURCE_ACCOUNT CALENDAR_NAME
  = (Some lunch_calendar,
     map (fun _ => LErrorAccessing CALENDAR_NAME SOURCE_ACCOUNT)
         (filter (named SOURCE_ACCOUNT)
            [mkAccount "archive" [(CALENDAR_NAME, steady [])];
             mkAccount SOURCE_ACCOUNT [("Inbox"%string, steady [])]])).
Proof.
  apply (get_calendar_first_match
           [mkAccount "archive" [(CALENDAR_NAME, steady [])];
            mkAccount SOURCE_ACCOUNT [("Inbox"%string, steady [])]]
           [mkAccount SOURCE_ACCOUNT [(CALENDAR_NAME, steady [])]]
           (mkAccount SOURCE_ACCOUNT [(CALENDAR_NAME, lunch_calendar)])).
  - reflexivity.
  - reflexivity.
  - intros b [<-|[<-|[]]] Hb.
    + vm_compute in Hb. discriminate Hb.
    + reflexivity.
Defined.



(** ** Order of the fetched events *)

Lemma insert_by_Start_sorted a l :
  StronglySorted start_le l -> StronglySorted start_le (insert_by_Start a l).
Proof.
  induction 1 as [|b rest Hsorted IH Hb]; simpl.
  - constructor; constructor.
  - destruct (Start a <=? Start b) eqn:E.
    + apply Z.leb_le in E. constructor.
      * now constructor.
      * constructor; [exact E|].
        apply Forall_forall. intros x Hx.
        rewrite Forall_forall in Hb. specialize (Hb x Hx).
        unfold start_le in *. lia.
    + apply Z.leb_gt in E. constructor; [assumption|].
      apply Forall_forall. intros x Hx.
      apply In_insert_by_Start in Hx. destruct Hx as [->|Hx].
      * unfold start_le. lia.
      * rewrite Forall_forall in Hb. now apply Hb.
Qed.

Lemma Sort_Start_sorted l : StronglySorted start_le (Sort_Start l).
Proof.
  induction l as [|a rest IH]; simpl; [constructor|].
  now apply insert_by_Start_sorted.
Qed.

Lemma insert_by_Start_perm a l : Permutation (insert_by_Start a l) (a :: l).
Proof.
  induction l as [|b rest IH]; simpl; [reflexivity|].
  destruct (Start a <=? Start b); [reflexivity|].
  rewrite IH. apply perm_swap.
Qed.

Lemma Sort_Start_perm l : Permutation (Sort_Start l) l.
Proof.
  induction l as [|a rest IH]; simpl; [reflexivity|].
  rewrite insert_by_Start_perm. now constructor.
Qed.

Lemma filter_sorted (p : AppointmentItem -> bool) l :
  StronglySorted start_le l -> StronglySorted start_le (filter p l).
Proof.
  induction 1 as [|a rest Hsorted IH Ha]; simpl; [constructor|].
  destruct (p a); [|assumption].
  constructor; [assumption|].
  apply Forall_forall. intros x Hx. apply filter_In in Hx.
  rewrite Forall_forall in Ha. now apply Ha.
Qed.

Lemma filter_perm (p : AppointmentItem -> bool) l l' :
  Permutation l l' -> Permutation (filter p l) (filter p l').
Proof.
  induction 1 as [|x l l' _ IH|x y l|l l' l'' _ IH1 _ IH2]; simpl.
  - reflexivity.
  - destruct (p x); [now constructor | assumption].
  - destruct (p x), (p y); try reflexivity. apply perm_swap.
  - etransitivity; eassumption.
Qed.

(** X3: the events that [get_events] returns come in ascending order of
    start - the order in which the main loop then processes them - and
    each of them as many times as it is on the calendar. *)
Theorem get_events_sorted
    (calendar_folder : Folder) (start_date end_date : datetime)
    (w w' : World) (source_events : list AppointmentItem) :
  get_events calendar_folder start_date end_date w = (w', inr source_events) ->
  StronglySorted start_le source_events
  /\ Permutation source_events
       (filter (satisfies (fetch_filter start_date end_date))
               (Items calendar_folder)).
Proof.
  unfold get_events, Restrict.
  destruct (Restrict_raises _ _); intros H; inversion H; subst.
  split.
  - apply filter_sorted, Sort_Start_sorted.
  - apply filter_perm, Sort_Start_perm.
Qed.

Lemma get_events_sorted_witness :
  StronglySorted start_le
    [appointment "standup" (clock 9 0 0) (clock 9 15 0);
     appointment "lunch" (clock 12 0 0) (clock 13 0 0)]
  /\ Permutation
       [appointment "standup" (clock 9 0 0) (clock 9 15 0);
        appointment "lunch" (clock 12 0 0) (clock 13 0 0)]
       (filter (satisfies (fetch_filter (clock 8 0 30)
                                        (clock 8 0 30 + timedelta_days 30)))
               (Items (steady [appointment "lunch" (clock 12 0 0) (clock 13 0 0);
                               appointment "past" (clock 7 0 0) (clock 7 30 0);
                               appointment "standup" (clock 9 0 0) (clock 9 15 0)]))).
Proof.
  apply (get_events_sorted
           (steady [appointment "lunch" (clock 12 0 0) (clock 13 0 0);
                    appointment "past" (clock 7 0 0) (clock 7 30 0);
                    appointment "standup" (clock 9 0 0) (clock 9 15 0)])
           (clock 8 0 30) (clock 8 0 30 + timedelta_days 30)
           (fresh_world (steady []))
           (called (CallRestrict (fetch_filter (clock 8 0 30)
                                    (clock 8 0 30 + timedelta_days 30)))
                   (fresh_world (steady [])))).
  vm_compute. reflexivity.
Defined.

(** ** The overlap test, further *)

Lemma scan_conflicts_effects conflicts start end_ w w' r :
  scan_conflicts conflicts start end_ w = (w', r) ->
  target_folder w' = target_folder w
  /\ com_calls w' = com_calls w
  /\ ((r = inr true /\
       exists c, In c conflicts /\ matches start end_ c = true /\
                 stdout w' = stdout w ++ [LOverlapFound (Subject c) (Start c) (End_ c)])
      \/ (r <> inr true /\ stdout w' = stdout w)).
Proof.
  revert w w' r. induction conflicts as [|c rest IH]; simpl; intros w w' r H.
  - inversion H. repeat split. right. split; [discriminate | reflexivity].
  - unfold bind at 1, get_Start in H.
    destruct (Start_raises c).
    { inversion H. repeat split. right. split; [discriminate | reflexivity]. }
    unfold ret at 1, bind at 1, get_End in H.
    destruct (End_raises c).
    { inversion H. repeat split. right. split; [discriminate | reflexivity]. }
    unfold ret at 1 in H. fold (matches start end_ c) in H.
    destruct (matches start end_ c) eqn:Hm.
    + unfold bind, get_Subject in H. destruct (Subject_raises c).
      { inversion H. repeat split. right. split; [discriminate | reflexivity]. }
      inversion H. repeat split. left. split; [reflexivity|].
      exists c. split; [now left|]. split; [assumption | reflexivity].
    + apply IH in H. destruct H as (Ht & Hc & [(Hr & c' & Hin & Hm' & Hs)|Hno]).
      * repeat split; try assumption. left. split; [assumption|].
        exists c'. split; [now right|]. now split.
      * repeat split; try assumption. now right.
Qed.

Lemma event_overlaps_eq start end_ w :
  event_overlaps start end_ w =
  if Restrict_raises (target_folder w) (overlap_filter start end_)
  then (called (CallRestrict (overlap_filter start end_)) w,
        inl (ComError (CallRestrict (overlap_filter start end_))))
  else scan_conflicts (conflicts_of (target_folder w) start end_) start end_
         (called (CallRestrict (overlap_filter start end_)) w).
Proof.
  unfold event_overlaps, bind, get_target, Restrict, conflicts_of.
  destruct (Restrict_raises _ _); [reflexivity|].
  now destruct (scan_conflicts _ _ _ _) as [w' [e|b]].
Qed.

(** X4: [event_overlaps] only reads: whatever it answers or raises, the
    target calendar is as before and exactly one COM call has been made,
    the [Restrict] with the filter of line 57. *)
Theorem event_overlaps_read_only (start end_ : datetime) (w : World) :
  target_folder (fst (event_overlaps start end_ w)) = target_folder w
  /\ com_calls (fst (event_overlaps start end_ w))
     = com_calls w ++ [CallRestrict (overlap_filter start end_)].
Proof.
  rewrite event_overlaps_eq.
  destruct (Restrict_raises _ _); [split; reflexivity|].
  destruct (scan_conflicts _ _ _ _) as [w' r] eqn:Hscan.
  apply scan_conflicts_effects in Hscan. destruct Hscan as (Ht & Hc & _).
  simpl in *. split; assumption.
Qed.

(** X5: an answer [True] of [event_overlaps] is never made up: some item
    of the target calendar is returned by the query of line 57 and
    satisfies one of the two rules of line 66, and the line
    [Overlap Found] that was printed names such an item.  Any other
    outcome prints nothing. *)
Theorem event_overlaps_true_is_sound (start end_ : datetime) (w : World) :
  (snd (event_overlaps start end_ w) = inr true /\
   exists c,
     In c (Items (target_folder w)) /\
     satisfies (overlap_filter start end_) c = true /\
     (start_within_tolerance c start \/ contains c start end_) /\
     stdout (fst (event_overlaps start end_ w))
     = stdout w ++ [LOverlapFound (Subject c) (Start c) (End_ c)])
  \/ (snd (event_overlaps start end_ w) <> inr true /\
      stdout (fst (event_overlaps start end_ w)) = stdout w).
Proof.
  rewrite event_overlaps_eq.
  destruct (Restrict_raises _ _).
  { right. split; [discriminate | reflexivity]. }
  destruct (scan_conflicts _ _ _ _) as [w' r] eqn:Hscan.
  apply scan_conflicts_effects in Hscan.
  destruct Hscan as (_ & _ & [(Hr & c & Hin & Hm & Hs)|(Hr & Hs)]).
  - left. split; [assumption|]. exists c.
    apply In_conflicts_of in Hin. destruct Hin as [Hin Hq].
    apply matches_iff in Hm.
    repeat split; assumption.
  - right. split; assumption.
Qed.

Lemma matches_on_returned start end_ c :
  satisfies (overlap_filter start end_) c = true ->
  matches start end_ c = (Start c <=? start + timedelta_minutes 1).
Proof.
  intros Hq. apply satisfies_overlap_filter in Hq. destruct Hq as [_ Hend].
  pose proof (Z.mod_pos_bound start 60000000 ltac:(lia)) as Hmod.
  pose proof (Z.div_mod start 60000000 ltac:(lia)) as Hdiv.
  unfold instant_of_minute, strftime, microseconds_per_minute in Hend.
  unfold matches, overlap_condition, replace_tzinfo_None, buffer,
    timedelta_minutes, microseconds_per_minute.
  destruct (Start c <=? start + 1 * 60000000) eqn:E.
  - apply Z.leb_le in E. apply orb_true_iff. left.
    apply andb_true_iff. split; apply Z.leb_le; lia.
  - apply Z.leb_gt in E. apply orb_false_iff. split.
    + apply andb_false_iff. left. apply Z.leb_gt. lia.
    + apply andb_false_iff. left. apply Z.leb_gt. lia.
Qed.

Lemma event_overlaps_existsb start end_ w :
  answers (target_folder w) start end_ ->
  snd (event_overlaps start end_ w)
  = inr (existsb (fun c => satisfies (overlap_filter start end_) c
                           && matches start end_ c)
                 (Items (target_folder w))).
Proof.
  intros Ha.
  destruct (existsb _ _) eqn:E.
  - apply existsb_exists in E. destruct E as (c & Hin & Hc).
    apply andb_true_iff in Hc. destruct Hc as [Hq Hm].
    apply (event_overlaps_true start end_ w c Ha); [|assumption].
    apply In_conflicts_of. now split.
  - apply event_overlaps_false; [assumption|].
    intros c Hc. apply In_conflicts_of in Hc. destruct Hc as [Hin Hq].
    destruct (matches start end_ c) eqn:Hm; [|reflexivity].
    assert (existsb (fun c => satisfies (overlap_filter start end_) c
                              && matches start end_ c)
                    (Items (target_folder w)) = true).
    { apply existsb_exists. exists c. split; [assumption|]. now rewrite Hq, Hm. }
    congruence.
Qed.

(** X6: what the test amounts to.  On the items that the query of line
    57 returns, the condition of line 66 says no more than: the item
    starts at most one minute after the candidate.  So, when the query is
    answered, [event_overlaps] answers [True] exactly when some item of
    the target calendar starts before the minute of the candidate's end,
    ends after the minute of the candidate's start, and starts no later
    than one minute after the candidate's start; the containment rule
    and the upper bound of the tolerance rule never decide. *)
Theorem event_overlaps_effective_rule (start end_ : datetime) (w : World) :
  answers (target_folder w) start end_ ->
  snd (event_overlaps start end_ w)
  = inr (existsb (fun c => (Start c <? instant_of_minute (strftime end_))
                           && (End_ c >? instant_of_minute (strftime start))
                           && (Start c <=? start + timedelta_minutes 1))
                 (Items (target_folder w))).
Proof.
  intros Ha. rewrite event_overlaps_existsb by assumption.
  f_equal.
  assert (H : forall c,
             satisfies (overlap_filter start end_) c && matches start end_ c
             = (Start c <? instant_of_minute (strftime end_))
               && (End_ c >? instant_of_minute (strftime start))
               && (Start c <=? start + timedelta_minutes 1)).
  { intros c.
    change ((Start c <? instant_of_minute (strftime end_))
            && (End_ c >? instant_of_minute (strftime start)))
      with (satisfies (overlap_filter start end_) c).
    destruct (satisfies (overlap_filter start end_) c) eqn:Hq; [|reflexivity].
    cbn [andb]. now apply matches_on_returned. }
  induction (Items (target_folder w)) as [|c rest IH]; cbn [existsb].
  - reflexivity.
  - now rewrite IH, H.
Qed.

Lemma event_overlaps_effective_rule_witness :
  snd (event_overlaps (clock 9 0 0) (clock 10 0 0)
         (fresh_world (steady [appointment "coffee" (clock 9 5 0) (clock 9 15 0);
                               appointment "early" (clock 8 30 0) (clock 9 10 0)])))
  = inr (existsb (fun c => (Start c <? instant_of_minute (strftime (clock 10 0 0)))
                           && (End_ c >? instant_of_minute (strftime (clock 9 0 0)))
                           && (Start c <=? clock 9 0 0 + timedelta_minutes 1))
                 (Items (target_folder
                    (fresh_world (steady [appointment "coffee" (clock 9 5 0) (clock 9 15 0);
                                          appointment "early" (clock 8 30 0) (clock 9 10 0)]))))).
Proof.
  apply (event_overlaps_effective_rule (clock 9 0 0) (clock 10 0 0)
           (fresh_world (steady [appointment "coffee" (clock 9 5 0) (clock 9 15 0);
                                 appointment "early" (clock 8 30 0) (clock 9 10 0)]))).
  split; vm_compute; reflexivity.
Defined.

(** X7: the answer depends on which items are on the target calendar, not
    on their order or number: if every item of one calendar is on another
    and both queries are answered, a [True] on the first is a [True] on
    the second. *)
Theorem event_overlaps_monotone (start end_ : datetime) (w w' : World) :
  answers (target_folder w) start end_ ->
  answers (target_folder w') start end_ ->
  (forall c, In c (Items (target_folder w)) -> In c (Items (target_folder w'))) ->
  snd (event_overlaps start end_ w) = inr true ->
  snd (event_overlaps start end_ w') = inr true.
Proof.
  intros Ha Ha' Hincl Htrue.
  rewrite event_overlaps_existsb in Htrue by assumption.
  injection Htrue as E. apply existsb_exists in E.
  destruct E as (c & Hin & Hc). apply andb_true_iff in Hc.
  destruct Hc as [Hq Hm].
  apply (event_overlaps_true start end_ w' c Ha'); [|assumption].
  apply In_conflicts_of. split; [now apply Hincl | assumption].
Qed.

Lemma event_overlaps_monotone_witness :
  snd (event_overlaps (clock 9 0 0) (clock 10 0 0)
         (fresh_world (steady [appointment "late" (clock 11 0 0) (clock 12 0 0);
                               appointment "early" (clock 8 30 0) (clock 9 10 0);
                               appointment "early" (clock 8 30 0) (clock 9 10 0)])))
  = inr true.
Proof.
  apply (event_overlaps_monotone (clock 9 0 0) (clock 10 0 0)
           (fresh_world (steady [appointment "early" (clock 8 30 0) (clock 9 10 0)]))).
  - split; vm_compute; reflexivity.
  - split; vm_compute; reflexivity.
  - intros c [<-|[]]. simpl. right. left. reflexivity.
  - vm_compute. reflexivity.
Defined.

(** ** What a run does to the calendar, the output and the backend *)

Lemma delta_trans w1 w2 w3 a1 a2 x1 x2 c1 c2 :
  delta w1 w2 a1 x1 c1 -> delta w2 w3 a2 x2 c2 ->
  delta w1 w3 (a1 ++ a2) (x1 ++ x2) (c1 ++ c2).
Proof.
  intros (I1 & R1 & S1 & O1 & C1) (I2 & R2 & S2 & O2 & C2).
  unfold delta. rewrite I2, I1, R2, R1, S2, S1, O2, O1, C2, C1.
  now rewrite !app_assoc.
Qed.

Lemma delta_refl w : delta w w [] [] [].
Proof. unfold delta. now rewrite !app_nil_r. Qed.

Lemma delta_with_line l w : delta w (with_line l w) [] [l] [].
Proof. unfold delta. simpl. now rewrite !app_nil_r. Qed.

Lemma delta_called c w : delta w (called c w) [] [] [c].
Proof. unfold delta. simpl. now rewrite !app_nil_r. Qed.

Lemma delta_saved b w :
  delta w (mkWorld (with_item b (target_folder w)) (stdout w)
                   (com_calls w ++ [CallSave b]))
        [b] [] [CallSave b].
Proof. unfold delta. simpl. now rewrite !app_nil_r. Qed.

Lemma event_overlaps_delta start end_ w w' r :
  event_overlaps start end_ w = (w', r) ->
  exists extra,
    delta w w' [] extra [CallRestrict (overlap_filter start end_)] /\
    filter is_outcome extra = [].
Proof.
  rewrite event_overlaps_eq.
  destruct (Restrict_raises _ _).
  { intros H. inversion H. exists []. split; [apply delta_called | reflexivity]. }
  intros Hscan. apply scan_conflicts_effects in Hscan.
  destruct Hscan as (Ht & Hc & [(_ & c & _ & _ & Hs)|(_ & Hs)]).
  - exists [LOverlapFound (Subject c) (Start c) (End_ c)]. split; [|reflexivity].
    unfold delta. rewrite Ht, Hc, Hs. simpl. now rewrite app_nil_r.
  - exists []. split; [|reflexivity].
    unfold delta. rewrite Ht, Hc, Hs. simpl. now rewrite !app_nil_r.
Qed.

Lemma no_outcome_no_booking extra :
  filter is_outcome extra = [] -> filter is_booked extra = [].
Proof.
  induction extra as [|l rest IH]; simpl; [auto|].
  destruct l; simpl; try discriminate; assumption.
Qed.

Lemma error_handler_delta event e w :
  exists extra,
    delta w (fst (error_handler event e w)) [] extra [] /\
    filter is_booked extra = [].
Proof.
  rewrite error_handler_eq. destruct (Subject_raises event).
  - exists []. split; [apply delta_refl | reflexivity].
  - eexists. split; [apply delta_with_line | reflexivity].
Qed.

(** One iteration of the main loop, with everything it leaves behind. *)
Lemma process_event_delta event w :
  exists added extra calls,
    delta w (fst (process_event event w)) added extra calls /\
    (added = [] \/ added = [busy_block event]) /\
    List.length (filter is_booked extra) = List.length added.
Proof.
  rewrite process_event_eq.
  destruct (Start_raises event) eqn:Hs.
  { destruct (error_handler_delta event (ReadError PStart (Subject event)) w)
      as (x & D & B).
    exists [], x, []. rewrite B. split; [assumption|]. split; [now left | reflexivity]. }
  destruct (End_raises event) eqn:He.
  { destruct (error_handler_delta event (ReadError PEnd (Subject event)) w)
      as (x & D & B).
    exists [], x, []. rewrite B. split; [assumption|]. split; [now left | reflexivity]. }
  destruct (event_overlaps (Start event) (End_ event) w) as [w1 r] eqn:Hov.
  apply event_overlaps_delta in Hov. destruct Hov as (x1 & D1 & O1).
  pose proof (no_outcome_no_booking x1 O1) as B1.
  destruct r as [e|[|]].
  - destruct (error_handler_delta event e w1) as (x & D & B).
    do 3 eexists.
    split; [exact (delta_trans _ _ _ _ _ _ _ _ _ D1 D)|].
    rewrite !filter_app, !length_app, B1, B. split; [now left | reflexivity].
  - do 3 eexists.
    split; [exact (delta_trans _ _ _ _ _ _ _ _ _ D1 (delta_with_line _ _))|].
    rewrite !filter_app, !length_app, B1. split; [now left | reflexivity].
  - unfold book_busy_time, try_except. rewrite book_busy_time_body_eq, Hs, He.
    destruct (Subject_raises event).
    { do 3 eexists.
      split; [exact (delta_trans _ _ _ _ _ _ _ _ _ D1 (delta_with_line _ _))|].
      rewrite !filter_app, !length_app, B1. split; [now left | reflexivity]. }
    cbv zeta. destruct (Save_raises _ _).
    + do 3 eexists.
      split; [exact (delta_trans _ _ _ _ _ _ _ _ _ D1
                       (delta_trans _ _ _ _ _ _ _ _ _ (delta_called _ _)
                                    (delta_with_line _ _)))|].
      rewrite !filter_app, !length_app, B1. split; [now left | reflexivity].
    + do 3 eexists.
      split; [exact (delta_trans _ _ _ _ _ _ _ _ _ D1
                       (delta_trans _ _ _ _ _ _ _ _ _ (delta_saved _ _)
                                    (delta_with_line _ _)))|].
      rewrite !filter_app, !length_app, B1. split; [now right | reflexivity].
Qed.

Lemma main_loop_delta events w :
  exists added extra calls,
    delta w (fst (main_loop events w)) added extra calls /\
    Forall (fun b => exists event, In event events /\ b = busy_block event) added /\
    List.length (filter is_booked extra) = List.length added /\
    (List.length added <= List.length events)%nat.
Proof.
  revert w. induction events as [|event rest IH]; intros w.
  - exists [], [], []. split; [apply delta_refl|].
    split; [constructor|]. split; [reflexivity | simpl; lia].
  - destruct (process_event_delta event w) as (a1 & x1 & c1 & D1 & Ha1 & B1).
    rewrite main_loop_cons.
    destruct (process_event event w) as [w1 [e|[]]]; simpl in D1.
    + exists a1, x1, c1. split; [assumption|]. split; [|split; [assumption|]].
      * destruct Ha1 as [->| ->]; constructor; [|constructor].
        exists event. split; [now left | reflexivity].
      * destruct Ha1 as [->| ->]; simpl; lia.
    + destruct (IH w1) as (a2 & x2 & c2 & D2 & Ha2 & B2 & L2).
      exists (a1 ++ a2), (x1 ++ x2), (c1 ++ c2).
      split; [eapply delta_trans; eassumption|]. split; [|split].
      * apply Forall_app. split.
        -- destruct Ha1 as [->| ->]; constructor; [|constructor].
           exists event. split; [now left | reflexivity].
        -- eapply Forall_impl; [|exact Ha2].
           intros b (ev & Hev & Hb). exists ev. split; [now right | assumption].
      * rewrite filter_app, !length_app. lia.
      * rewrite length_app. destruct Ha1 as [->| ->]; simpl; lia.
Qed.

(** X8: the main loop only ever appends to the target calendar.  The
    items that were there stay, in place and unchanged; each item that
    joins them is the busy block of one of the events processed; there
    is at most one new item per event; and the way the calendar answers
    COM calls is not altered. *)
Theorem main_loop_only_appends (events : list AppointmentItem) (w : World) :
  exists added,
    Items (target_folder (fst (main_loop events w)))
    = Items (target_folder w) ++ added /\
    Forall (fun b => exists event, In event events /\ b = busy_block event) added /\
    (List.length added <= List.length events)%nat /\
    Restrict_raises (target_folder (fst (main_loop events w)))
    = Restrict_raises (target_folder w) /\
    Save_raises (target_folder (fst (main_loop events w)))
    = Save_raises (target_folder w).
Proof.
  destruct (main_loop_delta events w)
    as (added & extra & calls & (HI & HR & HS & _) & Hfrom & _ & Hlen).
  exists added. repeat split; assumption.
Qed.

(** X10: an iteration of the main loop changes the target calendar only
    by appending the busy block of its event, and only after the start
    and the end of the event were read, the overlap test answered
    [False] and [Save] went through; an overlap test that answers [True]
    or raises never leads to a booking. *)
Theorem books_only_after_negative_answer (event : AppointmentItem) (w : World) :
  target_folder (fst (process_event event w)) = target_folder w
  \/ (Items (target_folder (fst (process_event event w)))
      = Items (target_folder w) ++ [busy_block event] /\
      Start_raises event = false /\
      End_raises event = false /\
      snd (event_overlaps (Start event) (End_ event) w) = inr false /\
      Save_raises (target_folder w) (busy_block event) = false).
Proof.
  assert (Hh : forall e w1, target_folder (fst (error_handler event e w1))
                            = target_folder w1).
  { intros e w1. rewrite error_handler_eq.
    now destruct (Subject_raises event). }
  rewrite process_event_eq.
  destruct (Start_raises event) eqn:Hs; [left; apply Hh|].
  destruct (End_raises event) eqn:He; [left; apply Hh|].
  destruct (event_overlaps (Start event) (End_ event) w) as [w1 r] eqn:Hov.
  pose proof (event_overlaps_quiet _ _ _ _ _ Hov) as [Ht _].
  destruct r as [e|[|]]; [left; now rewrite Hh | now left |].
  unfold book_busy_time, try_except. rewrite book_busy_time_body_eq, Hs, He.
  destruct (Subject_raises event); [now left|].
  cbv zeta. fold (busy_block event). rewrite Ht.
  destruct (Save_raises _ _) eqn:Hsave; [now left|].
  right. simpl. repeat split.
Qed.

(** ** Blocks of one run *)

Lemma hit_by_times event c c' :
  Start c = Start c' -> End_ c = End_ c' -> hit event c = hit event c'.
Proof.
  intros Hs He. unfold hit, matches. simpl. now rewrite Hs, He.
Qed.

(** X11: an event is not booked when the target calendar already carries
    the busy block of an event with the same start and end (and the start
    is before the minute of the end): the iteration leaves the target
    calendar as it is.  Two source events in the same slot give one
    block. *)
Theorem same_slot_not_booked_twice (event other : AppointmentItem) (w : World) :
  forallb readable (Items (target_folder w)) = true ->
  In (busy_block other) (Items (target_folder w)) ->
  Start event = Start other ->
  End_ event = End_ other ->
  starts_before_end_minute event ->
  target_folder (fst (process_event event w)) = target_folder w.
Proof.
  intros Hr Hin Hs He Hlen.
  rewrite process_event_target by assumption.
  unfold next_folder.
  destruct (_ || _); [reflexivity|].
  destruct (Restrict_raises _ _); [reflexivity|].
  assert (E : existsb (hit event) (Items (target_folder w)) = true).
  { apply existsb_exists. exists (busy_block other). split; [assumption|].
    rewrite <- (own_block_hits event Hlen).
    apply hit_by_times; simpl; congruence. }
  now rewrite E.
Qed.

Lemma same_slot_not_booked_twice_witness :
  target_folder
    (fst (process_event (appointment "1:1" (clock 12 0 0) (clock 13 0 0))
            (fresh_world
               (steady [busy_block (appointment "lunch" (clock 12 0 0) (clock 13 0 0))]))))
  = target_folder
      (fresh_world
         (steady [busy_block (appointment "lunch" (clock 12 0 0) (clock 13 0 0))])).
Proof.
  apply (same_slot_not_booked_twice
           (appointment "1:1" (clock 12 0 0) (clock 13 0 0))
           (appointment "lunch" (clock 12 0 0) (clock 13 0 0))).
  - reflexivity.
  - left. reflexivity.
  - reflexivity.
  - reflexivity.
  - vm_compute. reflexivity.
Defined.

Lemma next_folder_cases tc event :
  next_folder tc event = tc
  \/ (next_folder tc event = with_item (busy_block event) tc /\
      existsb (hit event) (Items tc) = false).
Proof.
  unfold next_folder.
  destruct (_ || _); [now left|].
  destruct (Restrict_raises _ _); [now left|].
  destruct (existsb _ _); [now left|].
  destruct (Subject_raises event); [now left|].
  cbv zeta. destruct (Save_raises _ _); [now left | now right].
Qed.

Lemma reached_sorted tc events :
  StronglySorted start_le events -> StronglySorted start_le (reached tc events).
Proof.
  induction 1 as [|event rest Hsorted IH Hev]; simpl; [constructor|].
  destruct (aborts tc event).
  - constructor; constructor.
  - constructor; [assumption|].
    apply Forall_forall. intros x Hx. apply In_reached in Hx.
    rewrite Forall_forall in Hev. now apply Hev.
Qed.

Lemma reached_all tc events :
  Forall (fun event => Subject_raises event = false) events ->
  reached tc events = events.
Proof.
  induction 1 as [|event rest Hev _ IH]; simpl; [reflexivity|].
  unfold aborts. rewrite Hev, andb_false_r. now rewrite IH.
Qed.

Lemma ForallOrdPairs_snoc {A} (R : A -> A -> Prop) l a :
  ForallOrdPairs R l -> Forall (fun x => R x a) l ->
  ForallOrdPairs R (l ++ [a]).
Proof.
  induction 1 as [|x l Hx _ IH]; intros Hall; simpl.
  - constructor; constructor.
  - inversion Hall; subst. constructor.
    + apply Forall_app. split; [assumption | now constructor].
    + now apply IH.
Qed.

Lemma earlier_item_not_hit_no_clash event c :
  Start c <= Start event ->
  hit event c = false ->
  ~ clash c (busy_block event).
Proof.
  intros Hle Hhit [Hs He]. unfold hit in Hhit.
  assert (Hq : satisfies (overlap_filter (Start event) (End_ event)) c = true)
    by (apply satisfies_overlap_filter; split; assumption).
  rewrite Hq, (matches_on_returned _ _ _ Hq) in Hhit. simpl in Hhit.
  apply Z.leb_gt in Hhit.
  unfold timedelta_minutes, microseconds_per_minute in Hhit. lia.
Qed.

Lemma fold_no_clash events :
  StronglySorted start_le events ->
  forall tc base added0,
    Items tc = base ++ added0 ->
    ForallOrdPairs (fun b1 b2 => ~ clash b1 b2) added0 ->
    Forall (fun b => Forall (fun event => Start b <= Start event) events) added0 ->
    exists added,
      Items (fold_left next_folder events tc) = base ++ added /\
      ForallOrdPairs (fun b1 b2 => ~ clash b1 b2) added.
Proof.
  induction 1 as [|event rest Hsorted IH Hev]; intros tc base added0 Hitems Hpairs Hbound.
  - exists added0. now split.
  - simpl.
    assert (Hrest : Forall (fun b => Forall (fun ev => Start b <= Start ev) rest) added0).
    { eapply Forall_impl; [|exact Hbound]. intros b Hb. now inversion Hb. }
    destruct (next_folder_cases tc event) as [->|[-> Hnone]].
    + now apply (IH tc base added0).
    + apply (IH _ base (added0 ++ [busy_block event])).
      * simpl. rewrite Hitems. now rewrite app_assoc.
      * apply ForallOrdPairs_snoc; [assumption|].
        apply Forall_forall. intros b Hb.
        apply earlier_item_not_hit_no_clash.
        -- rewrite Forall_forall in Hbound. specialize (Hbound b Hb).
           now inversion Hbound.
        -- destruct (hit event b) eqn:Hh; [|reflexivity].
           assert (existsb (hit event) (Items tc) = true).
           { apply existsb_exists. exists b. split; [|assumption].
             rewrite Hitems. apply in_or_app. now right. }
           congruence.
      * apply Forall_app. split; [assumption|].
        constructor; [|constructor]. exact Hev.
Qed.

(** X12: the busy blocks that one run adds to the target calendar do not
    collide with one another: of two of them, the one added first does
    not both start before the minute in which the other ends and end
    after the minute in which the other starts.  (Events are processed in
    order of start, so an event that runs into a block booked earlier in
    the run is skipped.) *)
Theorem blocks_of_a_run_do_not_clash
    (source_calendar : Folder) (START_DATE : datetime) (w : World) :
  forallb readable (Items (target_folder w)) = true ->
  exists added,
    Items (target_folder (fst (sync source_calendar START_DATE w)))
    = Items (target_folder w) ++ added /\
    ForallOrdPairs (fun b1 b2 => ~ clash b1 b2) added.
Proof.
  intros Hr. rewrite sync_target by assumption.
  destruct (Restrict_raises _ _).
  - exists []. split; [now rewrite app_nil_r | constructor].
  - apply (fold_no_clash _
             (reached_sorted _ _ (filter_sorted _ _ (Sort_Start_sorted _)))
             (target_folder w) (Items (target_folder w)) []).
    + now rewrite app_nil_r.
    + constructor.
    + constructor.
Qed.

Lemma blocks_of_a_run_do_not_clash_witness :
  exists added,
    Items (target_folder
             (fst (sync (steady [appointment "review" (clock 9 30 0) (clock 10 30 0);
                                 appointment "lunch" (clock 12 0 0) (clock 13 0 0);
                                 appointment "standup" (clock 9 0 0) (clock 10 0 0)])
                        (clock 8 0 30) (fresh_world (steady [])))))
    = Items (target_folder (fresh_world (steady []))) ++ added /\
    ForallOrdPairs (fun b1 b2 => ~ clash b1 b2) added.
Proof.
  apply (blocks_of_a_run_do_not_clash
           (steady [appointment "review" (clock 9 30 0) (clock 10 30 0);
                    appointment "lunch" (clock 12 0 0) (clock 13 0 0);
                    appointment "standup" (clock 9 0 0) (clock 10 0 0)])
           (clock 8 0 30) (fresh_world (steady []))).
  reflexivity.
Defined.

(** X13: after a run that went through all its events, the source
    events are covered.  With the items of the target calendar readable,
    the fetch answered and the subject of every fetched event readable,
    every fetched event that starts before the minute of its end and
    could be processed - its start and end can be read, its overlap
    query is answered, [Save] accepts its block - has, on the target
    calendar after the run, an item that its query returns and that
    satisfies line 66: one that was there, or the block of an earlier
    event, or its own. *)
Theorem fetched_events_are_covered
    (source_calendar : Folder) (START_DATE : datetime) (w : World)
    (event : AppointmentItem) :
  forallb readable (Items (target_folder w)) = true ->
  Restrict_raises source_calendar
    (fetch_filter START_DATE (START_DATE + timedelta_days 30)) = false ->
  Forall (fun ev => Subject_raises ev = false)
         (fetched source_calendar START_DATE (START_DATE + timedelta_days 30)) ->
  In event (fetched source_calendar START_DATE (START_DATE + timedelta_days 30)) ->
  starts_before_end_minute event ->
  Start_raises event = false ->
  End_raises event = false ->
  Restrict_raises (target_folder w)
    (overlap_filter (Start event) (End_ event)) = false ->
  Save_raises (target_folder w) (busy_block event) = false ->
  exists c,
    In c (Items (target_folder (fst (sync source_calendar START_DATE w)))) /\
    satisfies (overlap_filter (Start event) (End_ event)) c = true /\
    (start_within_tolerance c (Start event)
     \/ contains c (Start event) (End_ event)).
Proof.
  intros Hr Hfetch Hsub Hin Hlen Hs He Hq Hsave.
  rewrite sync_target, Hfetch by assumption.
  rewrite reached_all by assumption.
  set (events := fetched source_calendar START_DATE (START_DATE + timedelta_days 30)) in *.
  set (T := fold_left next_folder events (target_folder w)).
  assert (Hevsub : Subject_raises event = false)
    by (rewrite Forall_forall in Hsub; now apply Hsub).
  destruct (in_split _ _ Hin) as (pre & post & Hsplit).
  assert (Hsettled : next_folder T event = T).
  { apply (settled_after_processing (fold_left next_folder pre (target_folder w)));
      [assumption|].
    unfold T. rewrite Hsplit, fold_left_app. simpl. apply extends_fold. }
  destruct (extends_fold events (target_folder w)) as (_ & HR & HS). fold T in HR, HS.
  unfold next_folder in Hsettled.
  rewrite Hs, He, HR, Hq in Hsettled. cbn [orb] in Hsettled.
  destruct (existsb (hit event) (Items T)) eqn:E.
  - apply existsb_exists in E. destruct E as (c & Hc & Hh).
    unfold hit in Hh. apply andb_true_iff in Hh. destruct Hh as [Hcq Hcm].
    exists c. apply matches_iff in Hcm. now repeat split.
  - rewrite Hevsub in Hsettled.
    cbv zeta in Hsettled. fold (busy_block event) in Hsettled.
    rewrite HS, Hsave in Hsettled.
    apply (f_equal (fun tc => List.length (Items tc))) in Hsettled.
    simpl in Hsettled. rewrite length_app in Hsettled. simpl in Hsettled. lia.
Qed.

Lemma fetched_events_are_covered_witness :
  exists c,
    In c (Items (target_folder
                   (fst (sync lunch_calendar (clock 8 0 30)
                           (fresh_world (steady [])))))) /\
    satisfies (overlap_filter (Start (appointment "lunch" (clock 12 0 0) (clock 13 0 0)))
                              (End_ (appointment "lunch" (clock 12 0 0) (clock 13 0 0))))
              c = true /\
    (start_within_tolerance c (Start (appointment "lunch" (clock 12 0 0) (clock 13 0 0)))
     \/ contains c (Start (appointment "lunch" (clock 12 0 0) (clock 13 0 0)))
                   (End_ (appointment "lunch" (clock 12 0 0) (clock 13 0 0)))).
Proof.
  apply (fetched_events_are_covered lunch_calendar (clock 8 0 30)
           (fresh_world (steady []))
           (appointment "lunch" (clock 12 0 0) (clock 13 0 0))).
  - reflexivity.
  - reflexivity.
  - vm_compute. repeat constructor.
  - vm_compute. left. reflexivity.
  - vm_compute. reflexivity.
  - reflexivity.
  - reflexivity.
  - reflexivity.
  - reflexivity.
Defined.

(** ** How a run ends *)

Lemma sync_fetch_raises source_calendar START_DATE w :
  Restrict_raises source_calendar
    (fetch_filter START_DATE (START_DATE + timedelta_days 30)) = true ->
  sync source_calendar START_DATE w
  = (called (CallRestrict (fetch_filter START_DATE (START_DATE + timedelta_days 30))) w,
     inl (ComError (CallRestrict
                      (fetch_filter START_DATE (START_DATE + timedelta_days 30))))).
Proof.
  intros Hq. unfold sync. cbv zeta.
  unfold bind at 1, get_events, Restrict. now rewrite Hq.
Qed.

Lemma sync_fetch_answers source_calendar START_DATE w :
  Restrict_raises source_calendar
    (fetch_filter START_DATE (START_DATE + timedelta_days 30)) = false ->
  sync source_calendar START_DATE w
  = (main_loop (fetched source_calendar START_DATE (START_DATE + timedelta_days 30)) ;;;
     print LSyncingComplete)
      (called (CallRestrict (fetch_filter START_DATE (START_DATE + timedelta_days 30))) w).
Proof.
  intros Hq. unfold sync. cbv zeta.
  unfold bind at 1, get_events, Restrict. now rewrite Hq.
Qed.

Lemma aborts_keeps_folder tc event :
  aborts tc event = true -> next_folder tc event = tc.
Proof.
  unfold aborts, next_folder. intros H.
  apply andb_true_iff in H. destruct H as [H _].
  destruct (Start_raises event || End_raises event); [reflexivity|].
  simpl in H. now rewrite H.
Qed.

(** X14: a handler that cannot print ends the run.  With both calendars
    resolved, the fetch answered and the items of the target calendar
    readable: if the events before some fetched event have readable
    subjects, and on that event the body of the loop raises (its start
    or end cannot be read, or its overlap query raises) while its
    subject cannot be read either, then the exception of line 116 is
    caught by nothing and the script ends with status 1.  The target
    calendar is left as the earlier events made it: neither that event
    nor any later one is booked. *)
Theorem handler_failure_is_fatal
    (namespace_Folders : list Account) (now : datetime)
    (source_calendar target_calendar : Folder) (out1 out2 : list LogLine)
    (before after : list AppointmentItem) (event : AppointmentItem) :
  get_calendar namespace_Folders SOURCE_ACCOUNT CALENDAR_NAME
    = (Some source_calendar, out1) ->
  get_calendar namespace_Folders TARGET_ACCOUNT CALENDAR_NAME
    = (Some target_calendar, out2) ->
  Restrict_raises source_calendar
    (fetch_filter now (now + timedelta_days 30)) = false ->
  forallb readable (Items target_calendar) = true ->
  fetched source_calendar now (now + timedelta_days 30)
    = before ++ event :: after ->
  Forall (fun ev => Subject_raises ev = false) before ->
  aborts target_calendar event = true ->
  exit_status (main namespace_Folders now) = 1
  /\ target_after (main namespace_Folders now)
     = Some (fold_left next_folder before target_calendar).
Proof.
  intros Hsrc Htgt Hq Hr Hsplit Hbefore Habort.
  unfold main. rewrite Hsrc, Htgt.
  set (w := mkWorld target_calendar
              ([LSyncing SOURCE_ACCOUNT TARGET_ACCOUNT CALENDAR_NAME] ++ out1 ++ out2) []).
  rewrite sync_fetch_answers, Hsplit by assumption.
  set (w0 := called _ w).
  destruct (main_loop_returns before w0 Hbefore) as (w1 & x & H1 & _).
  pose proof (main_loop_target before w0 Hr) as Ht1.
  rewrite H1, reached_all in Ht1 by assumption. simpl in Ht1.
  assert (Hr1 : forallb readable (Items (target_folder w1)) = true)
    by (rewrite Ht1; now apply readable_fold).
  assert (Habort1 : aborts (target_folder w1) event = true).
  { unfold aborts in *. rewrite Ht1.
    destruct (extends_fold before target_calendar) as (_ & HR & _).
    now rewrite HR. }
  pose proof (process_event_status event w1 Hr1) as Hst.
  pose proof (process_event_target event w1 Hr1) as Ht2.
  rewrite Habort1 in Hst. destruct Hst as [e He].
  rewrite aborts_keeps_folder in Ht2 by assumption.
  unfold bind. rewrite main_loop_app, H1, main_loop_cons.
  destruct (process_event event w1) as [w2 r]. simpl in He, Ht2. subst r.
  simpl. split; [reflexivity|]. now rewrite Ht2, Ht1.
Qed.

Lemma handler_failure_is_fatal_witness :
  exit_status
    (main (mailboxes
             (steady [appointment "lunch" (clock 12 0 0) (clock 13 0 0);
                      mkAppointment "broken" (clock 14 0 0) (clock 15 0 0) "" 0 ""
                                    true true false;
                      appointment "review" (clock 16 0 0) (clock 17 0 0)])
             (steady []))
          (clock 8 0 30)) = 1
  /\ target_after
       (main (mailboxes
                (steady [appointment "lunch" (clock 12 0 0) (clock 13 0 0);
                         mkAppointment "broken" (clock 14 0 0) (clock 15 0 0) "" 0 ""
                                       true true false;
                         appointment "review" (clock 16 0 0) (clock 17 0 0)])
                (steady []))
             (clock 8 0 30))
     = Some (fold_left next_folder
               [appointment "lunch" (clock 12 0 0) (clock 13 0 0)] (steady [])).
Proof.
  apply (handler_failure_is_fatal
           (mailboxes
              (steady [appointment "lunch" (clock 12 0 0) (clock 13 0 0);
                       mkAppointment "broken" (clock 14 0 0) (clock 15 0 0) "" 0 ""
                                     true true false;
                       appointment "review" (clock 16 0 0) (clock 17 0 0)])
              (steady []))
           (clock 8 0 30)
           (steady [appointment "lunch" (clock 12 0 0) (clock 13 0 0);
                    mkAppointment "broken" (clock 14 0 0) (clock 15 0 0) "" 0 ""
                                  true true false;
                    appointment "review" (clock 16 0 0) (clock 17 0 0)])
           (steady []) [] []
           [appointment "lunch" (clock 12 0 0) (clock 13 0 0)]
           [appointment "review" (clock 16 0 0) (clock 17 0 0)]
           (mkAppointment "broken" (clock 14 0 0) (clock 15 0 0) "" 0 ""
                          true true false)).
  - reflexivity.
  - reflexivity.
  - reflexivity.
  - reflexivity.
  - vm_compute. reflexivity.
  - repeat constructor.
  - reflexivity.
Defined.

(** X15: when both calendars are resolved and the fetch of the source
    events raises, the run ends there with status 1: the only COM call
    made is that [Restrict], no event is processed, nothing is printed
    after the resolution of the calendars - no completion line - and the
    target calendar is as it was. *)
Theorem fetch_failure_is_fatal
    (namespace_Folders : list Account) (now : datetime)
    (source_calendar target_calendar : Folder) (out1 out2 : list LogLine) :
  get_calendar namespace_Folders SOURCE_ACCOUNT CALENDAR_NAME
    = (Some source_calendar, out1) ->
  get_calendar namespace_Folders TARGET_ACCOUNT CALENDAR_NAME
    = (Some target_calendar, out2) ->
  Restrict_raises source_calendar
    (fetch_filter now (now + timedelta_days 30)) = true ->
  main namespace_Folders now
  = mkProcess 1
      ([LSyncing SOURCE_ACCOUNT TARGET_ACCOUNT CALENDAR_NAME] ++ out1 ++ out2)
      [CallRestrict (fetch_filter now (now + timedelta_days 30))]
      (Some target_calendar).
Proof.
  intros Hsrc Htgt Hq. unfold main.
  rewrite Hsrc, Htgt, sync_fetch_raises by assumption.
  reflexivity.
Qed.

Lemma fetch_failure_is_fatal_witness :
  main (mailboxes (mkFolder [appointment "lunch" (clock 12 0 0) (clock 13 0 0)]
                            (fun _ => true) (fun _ => false))
                  (steady []))
       (clock 8 0 30)
  = mkProcess 1
      ([LSyncing SOURCE_ACCOUNT TARGET_ACCOUNT CALENDAR_NAME] ++ [] ++ [])
      [CallRestrict (fetch_filter (clock 8 0 30) (clock 8 0 30 + timedelta_days 30))]
      (Some (steady [])).
Proof.
  apply (fetch_failure_is_fatal
           (mailboxes (mkFolder [appointment "lunch" (clock 12 0 0) (clock 13 0 0)]
                                (fun _ => true) (fun _ => false))
                      (steady []))
           (clock 8 0 30)
           (mkFolder [appointment "lunch" (clock 12 0 0) (clock 13 0 0)]
                     (fun _ => true) (fun _ => false))
           (steady []) [] []).
  - reflexivity.
  - reflexivity.
  - reflexivity.
Defined.

(** ** The window of the fetch, to the second *)

Lemma instant_of_minute_strftime_gt d :
  d < instant_of_minute (strftime d) + timedelta_minutes 1.
Proof.
  unfold instant_of_minute, strftime, timedelta_minutes, microseconds_per_minute.
  pose proof (Z.mod_pos_bound d 60000000 ltac:(lia)).
  pose proof (Z.div_mod d 60000000 ltac:(lia)). lia.
Qed.

(** X16: how far the fetch can be off the window.  Because the bounds of
    the filter are written to the minute, the fetch returns every item
    of the calendar that starts at or after the start of the window and
    ends at least a minute before its end, and every item that it
    returns starts less than a minute before the start of the window at
    the earliest and ends within the window. *)
Theorem fetch_window_sandwich
    (calendar_folder : Folder) (start_date end_date : datetime) (w : World) :
  Restrict_raises calendar_folder (fetch_filter start_date end_date) = false ->
  exists w' source_events,
    get_events calendar_folder start_date end_date w = (w', inr source_events) /\
    (forall a, In a (Items calendar_folder) ->
               start_date <= Start a ->
               End_ a <= end_date - timedelta_minutes 1 ->
               In a source_events) /\
    (forall a, In a source_events ->
               start_date - timedelta_minutes 1 < Start a /\ End_ a <= end_date).
Proof.
  intros Hq.
  exists (called (CallRestrict (fetch_filter start_date end_date)) w),
         (fetched calendar_folder start_date end_date).
  pose proof (instant_of_minute_strftime_le start_date).
  pose proof (instant_of_minute_strftime_le end_date).
  pose proof (instant_of_minute_strftime_gt start_date).
  pose proof (instant_of_minute_strftime_gt end_date).
  split; [|split].
  - unfold get_events, Restrict. now rewrite Hq.
  - intros a Hin Hs He. unfold fetched.
    apply filter_In. split; [now apply In_Sort_Start|].
    apply satisfies_fetch_filter. lia.
  - intros a Hin. unfold fetched in Hin. apply filter_In in Hin.
    destruct Hin as [_ Hsat]. apply satisfies_fetch_filter in Hsat. lia.
Qed.

Lemma fetch_window_sandwich_witness :
  exists w' source_events,
    get_events (steady [appointment "call" (clock 9 0 0) (clock 9 30 0);
                        appointment "lunch" (clock 12 0 0) (clock 13 0 0)])
               (clock 9 0 30) (clock 9 0 30 + timedelta_days 30)
               (fresh_world (steady []))
      = (w', inr source_events) /\
    (forall a, In a (Items (steady [appointment "call" (clock 9 0 0) (clock 9 30 0);
                                    appointment "lunch" (clock 12 0 0) (clock 13 0 0)])) ->
               clock 9 0 30 <= Start a ->
               End_ a <= clock 9 0 30 + timedelta_days 30 - timedelta_minutes 1 ->
               In a source_events) /\
    (forall a, In a source_events ->
               clock 9 0 30 - timedelta_minutes 1 < Start a /\
               End_ a <= clock 9 0 30 + timedelta_days 30).
Proof.
  apply (fetch_window_sandwich
           (steady [appointment "call" (clock 9 0 0) (clock 9 30 0);
                    appointment "lunch" (clock 12 0 0) (clock 13 0 0)])
           (clock 9 0 30) (clock 9 0 30 + timedelta_days 30)
           (fresh_world (steady []))).
  reflexivity.
Defined.

(** ** Booking without the test, and the output of a second run *)

(** X17: [book_busy_time] does not look at the target calendar.  Called
    twice for the same event (whose start, end and subject can be read),
    with [Save] accepting the block, it puts the block there twice;
    keeping duplicates out is the work of the overlap test in the main
    loop alone. *)
Theorem book_busy_time_twice (event : AppointmentItem) (w : World) :
  Start_raises event = false ->
  End_raises event = false ->
  Subject_raises event = false ->
  Save_raises (target_folder w) (busy_block event) = false ->
  Items (target_folder
           (fst (book_busy_time event (fst (book_busy_time event w)))))
  = Items (target_folder w) ++ [busy_block event; busy_block event].
Proof.
  intros Hs He Hsub Hsave.
  assert (Hone : forall w0,
             Save_raises (target_folder w0) (busy_block event) = false ->
             target_folder (fst (book_busy_time event w0))
             = with_item (busy_block event) (target_folder w0)).
  { intros w0 H0. unfold book_busy_time, try_except.
    rewrite book_busy_time_body_eq, Hs, He, Hsub. cbv zeta.
    fold (busy_block event). now rewrite H0. }
  rewrite Hone; rewrite Hone; try assumption.
  simpl. now rewrite <- app_assoc.
Qed.

Lemma book_busy_time_twice_witness :
  Items (target_folder
           (fst (book_busy_time (appointment "lunch" (clock 12 0 0) (clock 13 0 0))
                   (fst (book_busy_time (appointment "lunch" (clock 12 0 0) (clock 13 0 0))
                           (fresh_world (steady [])))))))
  = Items (target_folder (fresh_world (steady [])))
    ++ [busy_block (appointment "lunch" (clock 12 0 0) (clock 13 0 0));
        busy_block (appointment "lunch" (clock 12 0 0) (clock 13 0 0))].
Proof.
  apply (book_busy_time_twice (appointment "lunch" (clock 12 0 0) (clock 13 0 0))
           (fresh_world (steady []))).
  - reflexivity.
  - reflexivity.
  - reflexivity.
  - reflexivity.
Defined.

(** X18: a second run says so.  When every source event starts before
    the minute of its end and the second run starts on the target
    calendar that the first one left, the second run prints no
    [Booked Busy Time] line: each event is reported as conflicting or as
    an error. *)
Theorem second_run_prints_no_booking
    (source_calendar : Folder) (START_DATE : datetime) (w w2 : World) :
  forallb readable (Items (target_folder w)) = true ->
  (forall event, In event (Items source_calendar) ->
                 starts_before_end_minute event) ->
  target_folder w2 = target_folder (fst (sync source_calendar START_DATE w)) ->
  exists extra,
    stdout (fst (sync source_calendar START_DATE w2)) = stdout w2 ++ extra /\
    filter is_booked extra = [].
Proof.
  intros Hr Hlen H2.
  rewrite sync_target in H2 by assumption.
  destruct (Restrict_raises source_calendar
              (fetch_filter START_DATE (START_DATE + timedelta_days 30))) eqn:Hq.
  { rewrite sync_fetch_raises by assumption. exists []. simpl.
    now rewrite app_nil_r. }
  set (events := fetched source_calendar START_DATE (START_DATE + timedelta_days 30)) in *.
  assert (Hev : Forall starts_before_end_minute events).
  { apply Forall_forall. intros ev Hin. apply Hlen.
    unfold events, fetched in Hin. apply filter_In in Hin.
    now apply In_Sort_Start. }
  assert (Hr2 : forallb readable (Items (target_folder w2)) = true)
    by (rewrite H2; now apply readable_fold).
  set (w0 := called (CallRestrict
                       (fetch_filter START_DATE (START_DATE + timedelta_days 30))) w2).
  destruct (main_loop_delta events w0)
    as (added & extra & calls & (HI & _ & _ & HO & _) & _ & Hb & _).
  pose proof (main_loop_target events w0 Hr2) as Ht.
  assert (Hsame : reached (target_folder w0) events
                  = reached (target_folder w) events).
  { apply reached_ext. simpl. rewrite H2. apply extends_fold. }
  change (target_folder w0) with (target_folder w2) in Ht, HI, Hsame.
  rewrite Hsame, H2 in Ht.
  rewrite fold_settled in Ht.
  2:{ apply all_settled_after_run. apply Forall_forall. intros ev Hin.
      rewrite Forall_forall in Hev. apply Hev. eapply In_reached; eassumption. }
  rewrite Ht, H2 in HI.
  rewrite <- (app_nil_r (Items _)) in HI at 1.
  apply app_inv_head in HI. subst added.
  apply length_zero_iff_nil in Hb.
  rewrite sync_fetch_answers by assumption.
  fold events. fold w0. unfold bind.
  destruct (main_loop events w0) as [w1 [e|[]]]; simpl in HO |- *.
  - exists extra. split; assumption.
  - exists (extra ++ [LSyncingComplete]). split.
    + rewrite HO. now rewrite app_assoc.
    + rewrite filter_app, Hb. reflexivity.
Qed.

Lemma second_run_prints_no_booking_witness :
  exists extra,
    stdout (fst (sync lunch_calendar (clock 8 0 30)
                   (fst (sync lunch_calendar (clock 8 0 30) (fresh_world (steady []))))))
    = stdout (fst (sync lunch_calendar (clock 8 0 30) (fresh_world (steady []))))
      ++ extra /\
    filter is_booked extra = [].
Proof.
  apply (second_run_prints_no_booking lunch_calendar (clock 8 0 30)
           (fresh_world (steady []))
           (fst (sync lunch_calendar (clock 8 0 30) (fresh_world (steady []))))).
  - reflexivity.
  - intros event [<-|[]]. vm_compute. reflexivity.
  - reflexivity.
Defined.

End SyncCalendars.
